(** * FinBot chat client: the CSV pipeline and the send lifecycle of [index.tsx]

    A shallow embedding of [src/index.tsx].  JavaScript strings are lists of
    UTF-16 code units, JavaScript numbers are binary64 values
    ([spec_float] at precision 53 and maximal exponent 1024), the page is a
    record of the module-level variables and of the DOM properties the code
    reads or writes, and an [async] function is cut at its [await]s: the part
    of [sendMessage] that runs before the first [await] is one function, and
    each resumption is one event of the step function. *)

From Stdlib Require Import ZArith NArith List Bool Lia String Ascii SpecFloat.
From Stdlib Require Import DecimalPos.
From stdpp Require Import base tactics list gmap.
Import ListNotations.

(** ** JavaScript strings *)

Module JS.

Local Open Scope Z_scope.

Definition code_unit := N.
Definition jsstring := list code_unit.

(** A literal of the source, written as a Rocq string of ASCII characters. *)
Definition js (s : string) : jsstring :=
  List.map N_of_ascii (list_ascii_of_string s).

Definition dquote : jsstring := [34%N].
Definition newline : code_unit := 10%N.
Definition comma : code_unit := 44%N.
Definition asterisk : code_unit := 42%N.

Definition code_unit_eqb (a b : code_unit) : bool := N.eqb a b.

Fixpoint str_eqb (s t : jsstring) : bool :=
  match s, t with
  | [], [] => true
  | a :: s', b :: t' => code_unit_eqb a b && str_eqb s' t'
  | _, _ => false
  end.

(** [ToBoolean] of a string: the empty string is the only falsy one. *)
Definition truthy (s : jsstring) : bool :=
  match s with [] => false | _ :: _ => true end.

(** [WhiteSpace] and [LineTerminator] of ECMA-262, the code units removed by
    [String.prototype.trim]. *)
Definition isLineTerminator (c : code_unit) : bool :=
  (N.eqb c 10 || N.eqb c 13 || N.eqb c 8232 || N.eqb c 8233)%N.

Definition isWhiteSpace (c : code_unit) : bool :=
  (N.eqb c 9 || N.eqb c 11 || N.eqb c 12 || N.eqb c 32 || N.eqb c 160
   || N.eqb c 5760 || (N.leb 8192 c && N.leb c 8202) || N.eqb c 8239
   || N.eqb c 8287 || N.eqb c 12288 || N.eqb c 65279)%N.

Definition isTrimmed (c : code_unit) : bool :=
  isWhiteSpace c || isLineTerminator c.

Fixpoint trimStart (s : jsstring) : jsstring :=
  match s with
  | c :: s' => if isTrimmed c then trimStart s' else s
  | [] => []
  end.

Definition trimEnd (s : jsstring) : jsstring := rev (trimStart (rev s)).

Definition trim (s : jsstring) : jsstring := trimEnd (trimStart s).

(** [s.split(sep)] for a one-character separator: never the empty list. *)
Fixpoint split (sep : code_unit) (s : jsstring) : list jsstring :=
  match s with
  | [] => [[]]
  | c :: s' =>
      if code_unit_eqb c sep then [] :: split sep s'
      else match split sep s' with
           | piece :: pieces => (c :: piece) :: pieces
           | [] => [[c]]
           end
  end.

(** [a.slice(1)] on an array. *)
Definition slice1 {A : Type} (a : list A) : list A := skipn 1 a.

Fixpoint startsWith (p s : jsstring) : bool :=
  match p, s with
  | [], _ => true
  | a :: p', b :: s' => code_unit_eqb a b && startsWith p' s'
  | _ :: _, [] => false
  end.

(** *** Decimal digits *)

Definition isDigit (c : code_unit) : bool := (N.leb 48 c && N.leb c 57)%N.

Definition digitValue (c : code_unit) : Z := Z.of_N c - 48.

Fixpoint takeDigits (s : jsstring) : jsstring * jsstring :=
  match s with
  | c :: s' =>
      if isDigit c then let '(ds, rest) := takeDigits s' in (c :: ds, rest)
      else ([], s)
  | [] => ([], [])
  end.

Definition digitsValue (ds : jsstring) : Z :=
  fold_left (fun acc c => acc * 10 + digitValue c) ds 0.

Fixpoint uintDigits (u : Decimal.uint) : jsstring :=
  match u with
  | Decimal.Nil => []
  | Decimal.D0 u' => 48%N :: uintDigits u'
  | Decimal.D1 u' => 49%N :: uintDigits u'
  | Decimal.D2 u' => 50%N :: uintDigits u'
  | Decimal.D3 u' => 51%N :: uintDigits u'
  | Decimal.D4 u' => 52%N :: uintDigits u'
  | Decimal.D5 u' => 53%N :: uintDigits u'
  | Decimal.D6 u' => 54%N :: uintDigits u'
  | Decimal.D7 u' => 55%N :: uintDigits u'
  | Decimal.D8 u' => 56%N :: uintDigits u'
  | Decimal.D9 u' => 57%N :: uintDigits u'
  end.

(** The decimal digits of a natural number, ["0"] for zero. *)
Definition decimal (n : N) : jsstring := uintDigits (N.to_uint n).

(** ** JavaScript numbers: binary64 *)

Definition number := spec_float.
Definition prec : Z := 53.
Definition emax : Z := 1024.

Definition zero : number := S754_zero false.
Definition NaN : number := S754_nan.
Definition Infinity : number := S754_infinity false.

Definition add (x y : number) : number := SFadd prec emax x y.
Definition lt (x y : number) : bool := SFltb x y.
Definition gt (x y : number) : bool := SFltb y x.
Definition ge (x y : number) : bool := SFleb y x.
Definition abs (x : number) : number := SFabs x.
Definition isNaN (x : number) : bool :=
  match x with S754_nan => true | _ => false end.
Definition isFinite (x : number) : bool :=
  match x with S754_zero _ | S754_finite _ _ _ => true | _ => false end.
Definition isZero (x : number) : bool :=
  match x with S754_zero _ => true | _ => false end.

(** The Number nearest to [d * 10^e10] for a natural [d], ties to even. *)
Definition ofDecimal (d e10 : Z) : number :=
  if d =? 0 then zero
  else if 0 <=? e10 then binary_normalize prec emax (d * 10 ^ e10) 0 false
  else
    let '(q, e, l) := SFdiv_core_binary prec emax d 0 (10 ^ (- e10)) 0 in
    binary_round_aux prec emax false q e l.

(** [StrUnsignedDecimalLiteral]: the longest prefix of [s] that is
    [Infinity], or digits with an optional fraction and an optional
    exponent; [None] when no prefix is one. *)
Definition exponentPart (s : jsstring) : Z :=
  match s with
  | c :: r =>
      if (N.eqb c 101 || N.eqb c 69)%N then
        let '(neg, r') :=
          match r with
          | s1 :: r1 =>
              if N.eqb s1 43 then (false, r1)
              else if N.eqb s1 45 then (true, r1) else (false, r)
          | [] => (false, r)
          end in
        let '(ds, _) := takeDigits r' in
        match ds with
        | [] => 0
        | _ :: _ => if neg then - digitsValue ds else digitsValue ds
        end
      else 0
  | [] => 0
  end.

Definition unsignedDecimalLiteral (s : jsstring) : option number :=
  if startsWith (js "Infinity") s then Some Infinity
  else
    let '(ip, r1) := takeDigits s in
    let '(fp, r2) :=
      match r1 with
      | c :: r => if N.eqb c 46 then takeDigits r else ([], r1)
      | [] => ([], r1)
      end in
    match ip ++ fp with
    | [] => None
    | ds => Some (ofDecimal (digitsValue ds)
                            (exponentPart r2 - Z.of_nat (length fp)))
    end.

(** The global [parseFloat]. *)
Definition parseFloat (s : jsstring) : number :=
  let t := trimStart s in
  let '(neg, u) :=
    match t with
    | c :: r =>
        if N.eqb c 45 then (true, r)
        else if N.eqb c 43 then (false, r) else (false, t)
    | [] => (false, t)
    end in
  match unsignedDecimalLiteral u with
  | Some x => if neg then SFopp x else x
  | None => NaN
  end.

(** [Number.prototype.toFixed(f)].  A finite value below [10^21] is printed
    as the integer nearest to [x * 10^f] (the larger one on a tie) with a
    point before its last [f] digits; [NumberToString] is
    [Number::toString], which prints the values of larger magnitude. *)
Definition scaled (m : positive) (e : Z) (k : Z) : Z :=
  if 0 <=? e then Z.pos m * 2 ^ e * k
  else (2 * (Z.pos m * k) + 2 ^ (- e)) / (2 * 2 ^ (- e)).

(** [k <= m * 2^e], for an integer [k]. *)
Definition atLeast (m : positive) (e : Z) (k : Z) : bool :=
  if 0 <=? e then k <=? Z.pos m * 2 ^ e else k * 2 ^ (- e) <=? Z.pos m.

(** A finite value of magnitude below [10^21]. *)
Definition small (x : number) : bool :=
  match x with
  | S754_zero _ => true
  | S754_finite _ m e => negb (atLeast m e (10 ^ 21))
  | _ => false
  end.

Definition padded (width : nat) (ds : jsstring) : jsstring :=
  repeat 48%N (width - length ds) ++ ds.

Definition fixedDigits (n : Z) (f : nat) : jsstring :=
  let p := 10 ^ Z.of_nat f in
  decimal (Z.to_N (n / p))
  ++ match f with
     | O => []
     | S _ => 46%N :: padded f (decimal (Z.to_N (n mod p)))
     end.

Definition toFixed (NumberToString : number -> jsstring)
    (x : number) (f : nat) : jsstring :=
  match x with
  | S754_nan => js "NaN"
  | S754_infinity s => if s then js "-Infinity" else js "Infinity"
  | S754_zero _ => fixedDigits 0 f
  | S754_finite s m e =>
      (if s then js "-" else [])
      ++ (if atLeast m e (10 ^ 21)
          then NumberToString (S754_finite false m e)
          else fixedDigits (scaled m e (10 ^ Z.of_nat f)) f)
  end.

End JS.

Import JS.


(** ** The transaction list: [parseCSV] *)

Record Transaction := {
  date : jsstring;
  description : jsstring;
  amount : number
}.

(** One iteration of the loop of [parseCSV], on the list built so far. *)
Definition parseLine (transactions : list Transaction) (line : jsstring)
    : list Transaction :=
  if str_eqb (trim line) [] then transactions
  else
    let parts := split comma line in
    if 3 <=? length parts then
      let date := trim (nth 0 parts []) in
      let description := trim (nth 1 parts []) in
      let amount := parseFloat (trim (nth 2 parts [])) in
      if truthy date && truthy description && negb (isNaN amount)
      then transactions ++ [{| date := date; description := description;
                               amount := amount |}]
      else transactions
    else transactions.

Definition parseCSV (csvContent : jsstring) : list Transaction :=
  let lines := slice1 (split newline csvContent) in
  fold_left parseLine lines [].

(** ** The totals computed by [sendMessage] *)

Definition totalIncome (transactions : list Transaction) : number :=
  fold_left (fun sum t => add sum (amount t))
            (List.filter (fun t => gt (amount t) zero) transactions) zero.

Definition totalExpenses (transactions : list Transaction) : number :=
  fold_left (fun sum t => add sum (amount t))
            (List.filter (fun t => lt (amount t) zero) transactions) zero.

(** ** The two display transforms of the streaming loop *)

(** [closeStrong s]: the shortest run [g] of characters other than line
    terminators with [s = g ++ "**" ++ _]; the lazy [(.*?)\*\*]. *)
Fixpoint closeStrong (s : jsstring) : option jsstring :=
  match s with
  | [] => None
  | a :: s' =>
      if startsWith [asterisk; asterisk] s then Some []
      else if isLineTerminator a then None
      else match closeStrong s' with
           | Some g => Some (a :: g)
           | None => None
           end
  end.

(** A match of [/\*\*(.*?)\*\*/] at the start of [s]: its group. *)
Definition matchStrong (s : jsstring) : option jsstring :=
  match s with
  | a :: b :: s' =>
      if code_unit_eqb a asterisk && code_unit_eqb b asterisk
      then closeStrong s' else None
  | _ => None
  end.

(** [s.replace(/\*\*(.*?)\*\*/g, '<strong>$1</strong>')]; [skip] counts the
    code units of the current match that are still to be passed over. *)
Fixpoint replaceStrongFrom (skip : nat) (s : jsstring) : jsstring :=
  match s with
  | [] => []
  | c :: s' =>
      match skip with
      | S k => replaceStrongFrom k s'
      | O =>
          match matchStrong s with
          | Some g =>
              js "<strong>" ++ g ++ js "</strong>"
              ++ replaceStrongFrom (length g + 3) s'
          | None => c :: replaceStrongFrom 0 s'
          end
      end
  end.

Definition replaceStrong (s : jsstring) : jsstring := replaceStrongFrom 0 s.

(** [s.replace(/\n/g, '<br>')] *)
Definition replaceNewlines (s : jsstring) : jsstring :=
  flat_map (fun c => if code_unit_eqb c newline then js "<br>" else [c]) s.

Definition formattedText (fullResponse : jsstring) : jsstring :=
  replaceNewlines (replaceStrong fullResponse).

(** ** The page *)

Inductive Sender := user | model.

(** A child of [chatHistory]: a message wrapper with the [innerHTML] of its
    [.message] element, or the block of [renderSuggestedPrompts] with the
    text of its buttons.  The text of a message is kept as it was assigned;
    the elements that the HTML parser made from it are counted by the
    host's [injected], see [userMessages]. *)
Inductive Entry :=
| Message (sender : Sender) (innerHTML : jsstring)
| SuggestedPrompts (prompts : list jsstring).

(** The [Chat] of the SDK: the instruction it was created with and the
    messages passed to [sendMessageStream], oldest first. *)
Record Chat := {
  systemInstruction : jsstring;
  sent : list jsstring
}.

(** A call of [sendMessage] suspended at an [await]: at
    [await chat.sendMessageStream(...)], or in the [for await] loop with
    the [fullResponse] accumulated so far. *)
Inductive Phase :=
| Connecting
| Receiving (fullResponse : jsstring).

Record Page := {
  chat : option Chat;
  userProfile : option jsstring;
  uploadedFile : option jsstring;
  transactions : list Transaction;
  chatHistory : list Entry;
  chatInputValue : jsstring;
  chatInputDisabled : bool;
  sendButtonDisabled : bool;
  attachButtonDisabled : bool;
  (** the suspended calls of [sendMessage], by the index in [chatHistory]
      of their [modelMessageElement] *)
  pending : gmap nat Phase
}.

Definition setChat (c : option Chat) (st : Page) : Page :=
  {| chat := c; userProfile := userProfile st;
     uploadedFile := uploadedFile st; transactions := transactions st;
     chatHistory := chatHistory st; chatInputValue := chatInputValue st;
     chatInputDisabled := chatInputDisabled st;
     sendButtonDisabled := sendButtonDisabled st;
     attachButtonDisabled := attachButtonDisabled st;
     pending := pending st |}.

Definition setUserProfile (p : option jsstring) (st : Page) : Page :=
  {| chat := chat st; userProfile := p;
     uploadedFile := uploadedFile st; transactions := transactions st;
     chatHistory := chatHistory st; chatInputValue := chatInputValue st;
     chatInputDisabled := chatInputDisabled st;
     sendButtonDisabled := sendButtonDisabled st;
     attachButtonDisabled := attachButtonDisabled st;
     pending := pending st |}.

Definition setUpload (f : option jsstring) (ts : list Transaction)
    (st : Page) : Page :=
  {| chat := chat st; userProfile := userProfile st;
     uploadedFile := f; transactions := ts;
     chatHistory := chatHistory st; chatInputValue := chatInputValue st;
     chatInputDisabled := chatInputDisabled st;
     sendButtonDisabled := sendButtonDisabled st;
     attachButtonDisabled := attachButtonDisabled st;
     pending := pending st |}.

Definition setChatHistory (h : list Entry) (st : Page) : Page :=
  {| chat := chat st; userProfile := userProfile st;
     uploadedFile := uploadedFile st; transactions := transactions st;
     chatHistory := h; chatInputValue := chatInputValue st;
     chatInputDisabled := chatInputDisabled st;
     sendButtonDisabled := sendButtonDisabled st;
     attachButtonDisabled := attachButtonDisabled st;
     pending := pending st |}.

Definition setChatInputValue (v : jsstring) (st : Page) : Page :=
  {| chat := chat st; userProfile := userProfile st;
     uploadedFile := uploadedFile st; transactions := transactions st;
     chatHistory := chatHistory st; chatInputValue := v;
     chatInputDisabled := chatInputDisabled st;
     sendButtonDisabled := sendButtonDisabled st;
     attachButtonDisabled := attachButtonDisabled st;
     pending := pending st |}.

Definition setPending (p : gmap nat Phase) (st : Page) : Page :=
  {| chat := chat st; userProfile := userProfile st;
     uploadedFile := uploadedFile st; transactions := transactions st;
     chatHistory := chatHistory st; chatInputValue := chatInputValue st;
     chatInputDisabled := chatInputDisabled st;
     sendButtonDisabled := sendButtonDisabled st;
     attachButtonDisabled := attachButtonDisabled st;
     pending := p |}.

(** [setFormState(isLoading)] *)
Definition setFormState (isLoading : bool) (st : Page) : Page :=
  {| chat := chat st; userProfile := userProfile st;
     uploadedFile := uploadedFile st; transactions := transactions st;
     chatHistory := chatHistory st; chatInputValue := chatInputValue st;
     chatInputDisabled := isLoading;
     sendButtonDisabled := isLoading;
     attachButtonDisabled := isLoading;
     pending := pending st |}.

(** The page as it loads.  The markup is not part of [src/]: the log is
    taken to start empty and the three controls enabled. *)
Definition initialPage : Page :=
  {| chat := None; userProfile := None; uploadedFile := None;
     transactions := []; chatHistory := []; chatInputValue := [];
     chatInputDisabled := false; sendButtonDisabled := false;
     attachButtonDisabled := false; pending := ∅ |}.

(** [addMessage(sender, text)]: the page and the index of the new
    [.message] element. *)
Definition addMessage (sender : Sender) (text : jsstring) (st : Page)
    : Page * nat :=
  (setChatHistory (chatHistory st ++ [Message sender text]) st,
   length (chatHistory st)).

(** [element.innerHTML = html] on a [.message] element of the log. *)
Definition setInnerHTML (element : nat) (html : jsstring) (st : Page)
    : Page :=
  match chatHistory st !! element with
  | Some (Message sender _) =>
      setChatHistory (<[element := Message sender html]> (chatHistory st)) st
  | _ => st
  end.

(** The user messages of a log. *)
Definition isUserMessage (e : Entry) : bool :=
  match e with Message user _ => true | _ => false end.

Definition userEntries (h : list Entry) : nat :=
  length (List.filter isUserMessage h).

(** The own properties of the table [suggestedPrompts], [[]] for any other
    key. *)
Definition suggestedPrompts (profile : jsstring) : list jsstring :=
  if str_eqb profile (js "Student") then
    [js "How do I build credit?"; js "Budgeting tips for students";
     js "Should I start investing?"]
  else if str_eqb profile (js "Professional") then
    [js "How to save for a house?"; js "401(k) vs. IRA";
     js "Understanding my taxes"]
  else if str_eqb profile (js "Retiree") then
    [js "Managing retirement income"; js "Estate planning basics";
     js "Minimizing taxes in retirement"]
  else [].

(** The properties that the table, an object literal, inherits from
    [Object.prototype].  The value of each is a function, with the [length]
    given here, but the value of [__proto__], which is the prototype itself
    and has no [length]. *)
Definition inherited (key : jsstring) : option (option nat) :=
  if str_eqb key (js "constructor") then Some (Some 1)
  else if str_eqb key (js "hasOwnProperty") then Some (Some 1)
  else if str_eqb key (js "isPrototypeOf") then Some (Some 1)
  else if str_eqb key (js "propertyIsEnumerable") then Some (Some 1)
  else if str_eqb key (js "toLocaleString") then Some (Some 0)
  else if str_eqb key (js "toString") then Some (Some 0)
  else if str_eqb key (js "valueOf") then Some (Some 0)
  else if str_eqb key (js "__defineGetter__") then Some (Some 2)
  else if str_eqb key (js "__defineSetter__") then Some (Some 2)
  else if str_eqb key (js "__lookupGetter__") then Some (Some 1)
  else if str_eqb key (js "__lookupSetter__") then Some (Some 1)
  else if str_eqb key (js "__proto__") then Some None
  else None.

(** The values of [suggestedPrompts[userProfile] || []]: an array of labels,
    or an inherited property, with its [length] if it has one. *)
Inductive Prompts :=
| Labels (labels : list jsstring)
| Inherited (length : option nat).

(** [suggestedPrompts[userProfile] || []]; the key of [null] is ["null"]. *)
Definition promptsFor (userProfile : option jsstring) : Prompts :=
  match userProfile with
  | Some p =>
      match inherited p with
      | Some length => Inherited length
      | None => Labels (suggestedPrompts p)
      end
  | None => Labels []
  end.

(** [renderSuggestedPrompts()]; [None] when it throws: an inherited property
    whose [length] is not [0] gets past the test of the length, and has no
    [forEach] to call.  The block is appended after the loop, so nothing of
    the page has changed when it throws. *)
Definition renderSuggestedPrompts (st : Page) : option Page :=
  match promptsFor (userProfile st) with
  | Labels prompts =>
      if length prompts =? 0 then Some st
      else Some (setChatHistory
                   (chatHistory st ++ [SuggestedPrompts prompts]) st)
  | Inherited (Some 0) => Some st
  | Inherited _ => None
  end.

Definition loadingIndicator : jsstring :=
  js "<div class=" ++ dquote ++ js "loading-indicator" ++ dquote
  ++ js "></div><div class=" ++ dquote ++ js "loading-indicator" ++ dquote
  ++ js "></div><div class=" ++ dquote ++ js "loading-indicator" ++ dquote
  ++ js "></div>".

Definition failureMessage : jsstring :=
  js "Sorry, something went wrong. Please try again.".

Definition configurationMessage : jsstring :=
  js "<strong>Error:</strong> " ++ js "API_KEY environment variable not set."
  ++ js ". Please ensure your API key is set up correctly and refresh the page.".

Definition instruction (profile : jsstring) : jsstring :=
  js "You are a friendly and knowledgeable personal finance assistant called "
  ++ dquote ++ js "FinBot" ++ dquote ++ js "." ++ [newline]
  ++ js "Your goal is to provide helpful guidance on savings, taxes, and investments."
  ++ [newline]
  ++ js "You MUST tailor your advice to the user's specified profile: **"
  ++ profile ++ js "**." ++ [newline]
  ++ js "When a user asks a question about an uploaded CSV file, use the information provided in the prompt to answer."
  ++ [newline]
  ++ js "Keep your answers concise, clear, and easy to understand."
  ++ [newline]
  ++ js "Start the conversation by introducing yourself and acknowledging the user's profile."
  ++ [newline]
  ++ js "IMPORTANT: Always include this disclaimer at the end of every response: "
  ++ dquote
  ++ js "Disclaimer: I am an AI assistant. This information is for educational purposes only. Please consult with a qualified financial advisor before making any financial decisions."
  ++ dquote.

(** [ToBoolean] of [process.env.API_KEY]: set, and not the empty string. *)
Definition configured (key : option jsstring) : bool :=
  match key with
  | Some k => truthy k
  | None => false
  end.

Definition greetingOf (profile : jsstring) : jsstring :=
  js "Hi! My profile is: " ++ profile.

(** The signals a suspended [sendMessage] is resumed with: the promise of
    [sendMessageStream] settles, or the iterator yields, ends or throws. *)
Inductive Signal :=
| Opened
| Rejected
| Chunk (text : jsstring)
| Ended
| Threw.

Inductive Event :=
| ProfileButtonClick (profile : option jsstring)
| ChatInputTyped (value : jsstring)
| ChatFormSubmit
| PromptButtonClick (textContent : jsstring)
| FileChosen (name : jsstring)
| FileRead (text : jsstring)
| FileReadError
| RemoveFileClick
| Stream (element : nat) (signal : Signal).

(** One row of the body of the transaction table. *)
Inductive TableRow :=
| NoTransactions
| TransactionRow (date description amountClass formattedAmount : jsstring).

Section Host.

(** [process.env.API_KEY], [Number::toString], the HTML parser and
    [toLocaleString('en-US', {style: 'currency', currency: 'USD'})] are the
    host's.  The text of a message is assigned to [innerHTML] as it comes,
    and [injected text] is the number of elements matching [.message.user]
    that the parser makes from it. *)
Variable API_KEY : option jsstring.
Variable NumberToString : number -> jsstring.
Variable injected : jsstring -> nat.
Variable toLocaleCurrency : number -> jsstring.

(** The elements of an entry of the log that match [.message.user]: the
    [.message] element of a user message, and the elements that the parser
    made from the text of a message or from the label of a button. *)
Definition matching (e : Entry) : nat :=
  match e with
  | Message user text => S (injected text)
  | Message model html => injected html
  | SuggestedPrompts prompts => list_sum (List.map injected prompts)
  end.

(** [chatHistory.querySelectorAll('.message.user').length] *)
Definition userMessages (h : list Entry) : nat :=
  list_sum (List.map matching h).

(** [initializeChat()]: the [throw] lands in the [catch] of the same
    function, which reports it in the log and leaves [chat] as it was.  The
    constructor of the SDK and [chats.create] are taken not to throw. *)
Definition initializeChat (st : Page) : Page :=
  if configured API_KEY then
    setChat (Some {| systemInstruction :=
                       instruction (default (js "null") (userProfile st));
                     sent := [] |}) st
  else fst (addMessage model configurationMessage st).

(** The [summary] sentence of [sendMessage]. *)
Definition summary (transactions : list Transaction) : jsstring :=
  js "The user has uploaded a CSV with "
  ++ decimal (N.of_nat (length transactions))
  ++ js " transactions. Total income: "
  ++ toFixed NumberToString (totalIncome transactions) 2
  ++ js ", Total expenses: "
  ++ toFixed NumberToString (abs (totalExpenses transactions)) 2
  ++ js ".".

(** The [prompt] of [sendMessage]. *)
Definition promptOf (st : Page) (messageText : jsstring) : jsstring :=
  if bool_decide (is_Some (uploadedFile st)) && (0 <? length (transactions st))
  then
    summary (transactions st) ++ [newline; newline]
    ++ js "Please answer the user's question based on this data: "
    ++ dquote ++ messageText ++ dquote
  else messageText.

(** The [catch] and [finally] blocks of [sendMessage]. *)
Definition catchBlock (modelMessageElement : nat) (st : Page) : Page :=
  setInnerHTML modelMessageElement failureMessage st.

Definition finallyBlock (st : Page) : Page := setFormState false st.

(** [sendMessage(messageText)] up to its first [await].  With [chat]
    undefined the call [chat.sendMessageStream] throws a [TypeError] inside
    the [try], so the [catch] and the [finally] run at once. *)
Definition sendMessage (messageText : jsstring) (st : Page) : Page :=
  if negb (truthy (trim messageText)) then st
  else
    let st := setFormState true st in
    let prompt := promptOf st messageText in
    let userDisplayMessage := messageText in
    let st := fst (addMessage user userDisplayMessage st) in
    let st := setChatInputValue [] st in
    let '(st, modelMessageElement) := addMessage model loadingIndicator st in
    match chat st with
    | Some c =>
        let c := {| systemInstruction := systemInstruction c;
                    sent := sent c ++ [prompt] |} in
        setPending (<[modelMessageElement := Connecting]> (pending st))
                   (setChat (Some c) st)
    | None => finallyBlock (catchBlock modelMessageElement st)
    end.

(** A suspended [sendMessage] resumes. *)
Definition resume (modelMessageElement : nat) (signal : Signal) (st : Page)
    : Page :=
  match pending st !! modelMessageElement, signal with
  | Some Connecting, Opened =>
      setPending (<[modelMessageElement := Receiving []]> (pending st))
                 (setInnerHTML modelMessageElement [] st)
  | Some (Receiving fullResponse), Chunk text =>
      let fullResponse := fullResponse ++ text in
      setPending (<[modelMessageElement := Receiving fullResponse]>
                    (pending st))
                 (setInnerHTML modelMessageElement
                               (formattedText fullResponse) st)
  | Some (Receiving _), Ended =>
      let st := setPending (delete modelMessageElement (pending st)) st in
      match (if userMessages (chatHistory st) =? 1
             then renderSuggestedPrompts st else Some st) with
      | Some st => finallyBlock st
      | None => finallyBlock (catchBlock modelMessageElement st)
      end
  | Some Connecting, Rejected
  | Some (Receiving _), Threw =>
      let st := setPending (delete modelMessageElement (pending st)) st in
      finallyBlock (catchBlock modelMessageElement st)
  | _, _ => st
  end.

(** [resetFileInput()] *)
Definition resetFileInput (st : Page) : Page := setUpload None [] st.

(** [addTransactionAnalysisMessage()]; the button appended to the message
    shows in its [innerHTML]. *)
Definition viewTransactionsButton : jsstring :=
  js "<button class=" ++ dquote
  ++ js "prompt-button view-transactions-button" ++ dquote
  ++ js ">View Transactions</button>".

Definition addTransactionAnalysisMessage (st : Page) : Page :=
  if 0 <? length (transactions st) then
    fst (addMessage model
           (js "I've analyzed your CSV file with "
            ++ decimal (N.of_nat (length (transactions st)))
            ++ js " transactions. You can view them or ask me questions about the data."
            ++ viewTransactionsButton) st)
  else
    fst (addMessage model
           (js "I couldn't find any valid transactions in your CSV. Please check the format (e.g., Date,Description,Amount) and try again.")
           st).

(** Is [text] the label of a button of a suggested-prompts block? *)
Definition isPromptButton (text : jsstring) (h : list Entry) : bool :=
  existsb (fun e => match e with
                    | SuggestedPrompts ps => existsb (str_eqb text) ps
                    | Message _ _ => false
                    end) h.

(** The listeners of the page.  Opening and closing the transaction viewer
    changes nothing of [Page] and is left out, as are the [hidden] classes,
    the file preview and the scrolling of the log.  [PromptButtonClick] is a
    click on a button of a suggested-prompts block; a click on a
    [.prompt-button] that the parser made from the text of a message sets
    the input and submits, which is [ChatInputTyped] and then
    [ChatFormSubmit]. *)
Definition step (st : Page) (ev : Event) : Page :=
  match ev with
  | ProfileButtonClick profile =>
      let userProfile :=
        match profile with
        | Some (_ :: _) => profile
        | _ => None
        end in
      let st := setUserProfile userProfile st in
      match userProfile with
      | Some p =>
          let st := initializeChat st in
          sendMessage (greetingOf p) st
      | None => st
      end
  | ChatInputTyped value => setChatInputValue value st
  | ChatFormSubmit => sendMessage (chatInputValue st) st
  | PromptButtonClick text =>
      if isPromptButton text (chatHistory st) then
        let st := setChatInputValue text st in
        sendMessage (chatInputValue st) st
      else st
  | FileChosen name => setUpload (Some name) (transactions st) st
  | FileRead text =>
      addTransactionAnalysisMessage
        (setUpload (uploadedFile st) (parseCSV text) st)
  | FileReadError =>
      resetFileInput
        (fst (addMessage model
                (js "Sorry, there was an error reading your file.") st))
  | RemoveFileClick => resetFileInput st
  | Stream element signal => resume element signal st
  end.

Definition run (st : Page) (evs : list Event) : Page := fold_left step evs st.

(** [renderTransactionsTable()]: the rows of the table body. *)
Definition amountClass (trx : Transaction) : jsstring :=
  if ge (amount trx) zero then js "amount-positive" else js "amount-negative".

Definition renderTransactionsTable (transactions : list Transaction)
    : list TableRow :=
  if length transactions =? 0 then [NoTransactions]
  else
    List.map (fun trx =>
                TransactionRow (date trx) (description trx) (amountClass trx)
                               (toLocaleCurrency (amount trx)))
             transactions.

(** *** Conversations whose sends do not overlap *)

(** How the stream of one send goes: it completes after its chunks, throws
    after them, or the promise of [sendMessageStream] rejects. *)
Inductive Outcome :=
| Completes (chunks : list jsstring)
| Fails (chunks : list jsstring)
| Refused.

Definition signals (o : Outcome) : list Signal :=
  match o with
  | Completes chunks => Opened :: List.map Chunk chunks ++ [Ended]
  | Fails chunks => Opened :: List.map Chunk chunks ++ [Threw]
  | Refused => [Rejected]
  end.

Definition completes (o : Outcome) : bool :=
  match o with Completes _ => true | _ => false end.

(** The signals of [o], delivered to the send whose placeholder is the last
    entry of the log. *)
Definition stream (o : Outcome) (st : Page) : Page :=
  run st (List.map (Stream (length (chatHistory st) - 1)) (signals o)).

(** One user turn: the text is typed and submitted, and its stream runs to
    its end before anything else happens. *)
Definition turn (st : Page) (t : jsstring * Outcome) : Page :=
  stream (snd t) (run st [ChatInputTyped (fst t); ChatFormSubmit]).

(** A conversation: the profile is chosen on the fresh page, the stream of
    the greeting runs, then the turns follow one after the other. *)
Definition conversation (profile : jsstring) (greeting : Outcome)
    (turns : list (jsstring * Outcome)) : Page :=
  fold_left turn turns
    (stream greeting (step initialPage (ProfileButtonClick (Some profile)))).

End Host.

(** ** The vocabulary of the specification *)

(** Field [i] of a line, trimmed. *)
Definition field (i : nat) (line : jsstring) : jsstring :=
  trim (nth i (split comma line) []).

(** A line that becomes a record: not blank, at least three fields, a date
    and a description that are not empty, and an amount that is a number. *)
Definition accepted (line : jsstring) : bool :=
  truthy (trim line) && (3 <=? length (split comma line))
  && truthy (field 0 line) && truthy (field 1 line)
  && negb (isNaN (parseFloat (field 2 line))).

Definition recordOf (line : jsstring) : Transaction :=
  {| date := field 0 line; description := field 1 line;
     amount := parseFloat (field 2 line) |}.

(** A record as the parser makes them. *)
Definition valid (t : Transaction) : Prop :=
  date t <> [] /\ description t <> [] /\ isNaN (amount t) = false.

(** The sum, in list order and from [sum], of the amounts that satisfy [p]. *)
Fixpoint sumWhere (p : number -> bool) (sum : number)
    (ts : list Transaction) : number :=
  match ts with
  | [] => sum
  | t :: ts' =>
      sumWhere p (if p (amount t) then add sum (amount t) else sum) ts'
  end.

(** The Number of an integer: what [parseFloat] reads from its decimal
    digits and its sign. *)
Definition ofInteger (n : Z) : number :=
  if (n <? 0)%Z then SFopp (ofDecimal (- n) 0) else ofDecimal n 0.

(** The Number of sign [s] and magnitude [p], for [p] below [2^53]: its
    mantissa has 53 digits. *)
Definition canon (s : bool) (p : positive) : number :=
  S754_finite s (Pos.shiftl p (Z.to_N (53 - Z.pos (digits2_pos p))))
              (Z.pos (digits2_pos p) - 53).

(** The sum of a list of integers. *)
Definition sumZ (l : list Z) : Z := fold_right Z.add 0%Z l.

Definition isBlock (e : Entry) : bool :=
  match e with SuggestedPrompts _ => true | Message _ _ => false end.

Definition profileTags : list jsstring :=
  [js "Student"; js "Professional"; js "Retiree"].

(** The text of a number printed with two decimals: an optional sign,
    digits, a point and two digits. *)
Definition twoDecimals (s : jsstring) : Prop :=
  exists sign whole d1 d2,
    s = sign ++ whole ++ [46%N; d1; d2]
    /\ (sign = [] \/ sign = js "-")
    /\ whole <> [] /\ forallb isDigit (whole ++ [d1; d2]) = true.

(** A page is well formed when every suspended send holds a model message
    of the log. *)
Definition wellFormed (st : Page) : Prop :=
  forall el ph, pending st !! el = Some ph ->
    exists html, chatHistory st !! el = Some (Message model html).

(** The number of suggested-prompts blocks in a log. *)
Definition blocks (h : list Entry) : nat := length (List.filter isBlock h).

(** What holds of every page the listeners can reach: it is well formed,
    its log has at most one block, without a user message nothing is in
    flight and there is no block, and with one user message there is a
    block or at most one send in flight, not both. *)
Definition orderly (st : Page) : Prop :=
  wellFormed st
  /\ blocks (chatHistory st) <= 1
  /\ (userEntries (chatHistory st) = 0 ->
      pending st = ∅ /\ blocks (chatHistory st) = 0)
  /\ (userEntries (chatHistory st) = 1 ->
      blocks (chatHistory st) + size (pending st) <= 1).


Definition enabled (st : Page) : Prop :=
  chatInputDisabled st = false /\ sendButtonDisabled st = false
  /\ attachButtonDisabled st = false.

Definition disabled (st : Page) : Prop :=
  chatInputDisabled st = true /\ sendButtonDisabled st = true
  /\ attachButtonDisabled st = true.


Definition noAsterisk (c : code_unit) : bool := negb (code_unit_eqb c asterisk).

Definition modelAt (h : list Entry) (el : nat) : Prop :=
  exists html, h !! el = Some (Message model html).

(** The page [st] once the send holding [el] has received [fullResponse]. *)
Definition receiving (el : nat) (fullResponse : jsstring) (st : Page)
    : Page :=
  setPending (<[el := Receiving fullResponse]> (pending st))
    (setChatHistory
       (<[el := Message model (formattedText fullResponse)]> (chatHistory st))
       st).

(** The page [st] once the send holding [el] has failed. *)
Definition failed (el : nat) (st : Page) : Page :=
  setFormState false
    (setChatHistory (<[el := Message model failureMessage]> (chatHistory st))
       (setPending (delete el (pending st)) st)).

(** The block [renderSuggestedPrompts] appends for a profile, if any. *)
Definition blockOf (profile : option jsstring) : list Entry :=
  match promptsFor profile with
  | Labels (prompt :: prompts) => [SuggestedPrompts (prompt :: prompts)]
  | _ => []
  end.

(** Does [renderSuggestedPrompts] throw for this profile? *)
Definition throws (profile : option jsstring) : bool :=
  match promptsFor profile with
  | Inherited (Some 0) | Labels _ => false
  | Inherited _ => true
  end.

(** What the stream of a send assigns last to its placeholder. *)
Definition shown (o : Outcome) : jsstring :=
  match o with
  | Completes chunks => formattedText (concat chunks)
  | Fails _ | Refused => failureMessage
  end.

(** The log when the stream of the send of [text] is over, for a send made
    with a session, nothing else in flight and the log [h].  When the stream
    completes and the log then holds one element matching [.message.user],
    [renderSuggestedPrompts] runs: it appends the block of the profile, if
    any, or throws, and the failure message replaces the response. *)
Definition answered (injected : jsstring -> nat)
    (profile : option jsstring) (h : list Entry) (text : jsstring)
    (o : Outcome) : list Entry :=
  let log := h ++ [Message user text; Message model (shown o)] in
  if completes o && (userMessages injected log =? 1) then
    if throws profile
    then h ++ [Message user text; Message model failureMessage]
    else log ++ blockOf profile
  else log.

(** *** The inputs of the examples *)

Definition question : jsstring := js "Am I rich?".

Definition exampleCSV : jsstring :=
  js "Date,Description,Amount" ++ [newline]
  ++ js "2024-01-01,Salary,2500" ++ [newline]
  ++ js "2024-01-02,Groceries,-42.50" ++ [newline]
  ++ js "bad,row".

Definition infinityCSV : jsstring :=
  js "Date,Description,Amount" ++ [newline]
  ++ js "2024-01-03,Bonus,Infinity".

(** A file whose amounts are integers, and these integers. *)
Definition integersCSV : jsstring :=
  js "Date,Description,Amount" ++ [newline]
  ++ js "2024-01-01,Salary,2500" ++ [newline]
  ++ js "2024-01-02,Groceries,-42" ++ [newline]
  ++ js "2024-01-03,Bonus,1200" ++ [newline]
  ++ js "2024-01-04,Rent,-800" ++ [newline]
  ++ js "2024-01-05,Refund,0".

Definition integers : list Z := [2500; -42; 1200; -800; 0]%Z.

Definition demoKey : option jsstring := Some (js "key").

(** A stand-in for [Number::toString] and for the currency format, where an
    example has to run. *)
Definition demoToString (x : number) : jsstring := js "1e+21".

(** The start tag of an element that matches [.message.user], and a parser
    for the examples: it counts these start tags, which is what the HTML
    parser makes of the markup used here. *)
Definition userTag : jsstring :=
  js "<div class=" ++ dquote ++ js "message user" ++ dquote ++ js ">".

Fixpoint occurrences (p s : jsstring) : nat :=
  match s with
  | [] => 0
  | _ :: s' => (if startsWith p s then 1 else 0) + occurrences p s'
  end.

Definition demoInjected (text : jsstring) : nat := occurrences userTag text.

(** The file of the example is attached. *)
Definition attachExample : list Event :=
  [FileChosen (js "january.csv"); FileRead exampleCSV].

(** The greeting is answered, then a file whose only row has an infinite
    amount is attached. *)
Definition attachInfinity : list Event :=
  [ProfileButtonClick (Some (js "Student"));
   Stream 1 Opened; Stream 1 (Chunk (js "Welcome")); Stream 1 Ended;
   FileChosen (js "bonus.csv"); FileRead infinityCSV].

(** A greeting that fails, then a question that is answered. *)
Definition lateAnswer : list (jsstring * Outcome) :=
  [(js "What is an IRA?", Completes [js "A retirement account."])].

(** Two sends overlap: the greeting completes and the prompts appear, a
    typed question is sent, a prompt button is clicked while that question
    is still streaming, and then the stream of the question ends. *)
Definition overlappingSends : list Event :=
  [ProfileButtonClick (Some (js "Student"));
   Stream 1 Opened; Stream 1 (Chunk (js "Welcome")); Stream 1 Ended;
   ChatInputTyped (js "How much should I save?"); ChatFormSubmit;
   PromptButtonClick (js "How do I build credit?");
   Stream 4 Opened; Stream 4 (Chunk (js "Ten percent.")); Stream 4 Ended].


(** ** Further vocabulary *)

(** Text without a line feed, and text without a comma. *)
Definition oneLine (s : jsstring) : bool :=
  forallb (fun c => negb (code_unit_eqb c newline)) s.

Definition noComma (s : jsstring) : bool :=
  forallb (fun c => negb (code_unit_eqb c comma)) s.

(** Text made of white space and line terminators only. *)
Definition blank (s : jsstring) : bool := forallb isTrimmed s.

(** The lines [ls] written to a file, [eol] between two of them. *)
Fixpoint joinLines (eol : jsstring) (ls : list jsstring) : jsstring :=
  match ls with
  | [] => []
  | [l] => l
  | l :: ls' => l ++ eol ++ joinLines eol ls'
  end.

Definition carriageReturn : code_unit := 13%N.

(** A number that is neither NaN nor below zero. *)
Definition notNegative (x : number) : bool :=
  match x with
  | S754_nan => false
  | S754_zero _ => true
  | S754_infinity s | S754_finite s _ _ => negb s
  end.

(** A number that is neither NaN nor above zero. *)
Definition notPositive (x : number) : bool :=
  match x with
  | S754_nan => false
  | S754_zero _ => true
  | S754_infinity s | S754_finite s _ _ => s
  end.

(** The texts of the turns that are sent: those that are not blank. *)
Definition said (turns : list (jsstring * Outcome)) : list jsstring :=
  List.filter (fun t => truthy (trim t)) (List.map fst turns).

(** The three controls agree, and they are disabled only while a send is
    suspended. *)
Definition guarded (st : Page) : Prop :=
  sendButtonDisabled st = chatInputDisabled st
  /\ attachButtonDisabled st = chatInputDisabled st
  /\ (chatInputDisabled st = true -> pending st <> ∅).

Definition isModelMessage (e : Entry) : bool :=
  match e with Message model _ => true | _ => false end.

(** The texts of the user messages of a log, oldest first. *)
Definition textOf (e : Entry) : option jsstring :=
  match e with Message user text => Some text | _ => None end.

Definition userTexts (h : list Entry) : list jsstring := omap textOf h.

(** A prompt carries a text when it is the text itself, or the text in
    quotes after the summary of some list of records. *)
Definition carries (NumberToString : number -> jsstring)
    (prompt text : jsstring) : Prop :=
  prompt = text
  \/ exists ts,
       prompt = summary NumberToString ts ++ [newline; newline]
                ++ js "Please answer the user's question based on this data: "
                ++ dquote ++ text ++ dquote.

(** The messages passed to the session, if there is one, carry the texts of
    the latest user messages of the log, one for one and in order. *)
Definition mirrors (NumberToString : number -> jsstring) (st : Page) : Prop :=
  forall c, chat st = Some c ->
    exists older recent,
      userTexts (chatHistory st) = older ++ recent
      /\ Forall2 (carries NumberToString) (sent c) recent.

(** * Proofs *)

(** One case for each tag of [profileTags]. *)
Ltac each_profile H := destruct H as [<-|[<-|[<-|[]]]].

(** ** C1: [parseCSV] *)

Lemma parseLine_accepted (acc : list Transaction) (line : jsstring) :
  parseLine acc line = if accepted line then acc ++ [recordOf line] else acc.
Proof.
  unfold parseLine, accepted, recordOf, field.
  destruct (trim line) as [|c t]; cbn [str_eqb truthy andb]; [reflexivity|].
  destruct (3 <=? length (split comma line)); cbn [andb]; [|reflexivity].
  destruct (truthy (trim (nth 0 (split comma line) [])));
    cbn [andb]; [|reflexivity].
  destruct (truthy (trim (nth 1 (split comma line) [])));
    cbn [andb]; reflexivity.
Qed.

Lemma fold_parseLine (lines : list jsstring) (acc : list Transaction) :
  fold_left parseLine lines acc
  = acc ++ List.map recordOf (List.filter accepted lines).
Proof.
  revert acc. induction lines as [|line lines IH]; intros acc; simpl.
  - now rewrite app_nil_r.
  - rewrite IH, parseLine_accepted.
    destruct (accepted line); simpl; [|reflexivity].
    now rewrite <- app_assoc.
Qed.

Lemma filter_length_le {A : Type} (p : A -> bool) (l : list A) :
  length (List.filter p l) <= length l.
Proof.
  induction l as [|a l IH]; simpl; [lia|]. destruct (p a); simpl; lia.
Qed.

Lemma truthy_nonempty (s : jsstring) : truthy s = true -> s <> [].
Proof. destruct s; [discriminate|congruence]. Qed.

Lemma accepted_record (line : jsstring) :
  accepted line = true ->
  date (recordOf line) <> [] /\ description (recordOf line) <> []
  /\ isNaN (amount (recordOf line)) = false.
Proof.
  unfold accepted. rewrite !andb_true_iff, negb_true_iff.
  intros [[[[_ _] Hd] He] Ha]. simpl. auto using truthy_nonempty.
Qed.

Lemma parseCSV_filter (csv : jsstring) :
  parseCSV csv
  = List.map recordOf (List.filter accepted (slice1 (split newline csv))).
Proof. unfold parseCSV. now rewrite fold_parseLine. Qed.

Lemma parseCSV_valid (csv : jsstring) (t : Transaction) :
  In t (parseCSV csv) -> valid t.
Proof.
  rewrite parseCSV_filter. intros Ht.
  apply in_map_iff in Ht as [line [<- Hl]].
  apply filter_In in Hl as [_ Hl]. now apply accepted_record.
Qed.

(** C1, as the code has it.  [parseCSV] returns, in input order, the record
    of every line after the first that is not blank, has at least three
    comma-separated fields, a date and a description that trim to non-empty
    text, and an amount for which [parseFloat] does not return NaN; the other
    lines are dropped.  So the output is no longer than the number of lines
    minus one, and every record has a non-empty date, a non-empty
    description and an amount that is not NaN (finite or infinite). *)
Theorem C1_parseCSV_records (csv : jsstring) :
  parseCSV csv
  = List.map recordOf (List.filter accepted (slice1 (split newline csv)))
  /\ length (parseCSV csv) <= length (split newline csv) - 1
  /\ Forall (fun t => date t <> [] /\ description t <> []
                      /\ isNaN (amount t) = false) (parseCSV csv).
Proof.
  split; [apply parseCSV_filter|]. split.
  - rewrite parseCSV_filter, length_map.
    etransitivity; [apply filter_length_le|].
    unfold slice1. rewrite length_skipn. lia.
  - apply List.Forall_forall. apply parseCSV_valid.
Qed.

(** C1, as stated, fails: a row whose amount reads [Infinity] is kept, and
    its amount is not finite. *)
Lemma C1_infinite_amount_kept :
  parseCSV infinityCSV
  = [{| date := js "2024-01-03"; description := js "Bonus";
        amount := Infinity |}]
  /\ ~ Forall (fun t => isFinite (amount t) = true) (parseCSV infinityCSV).
Proof.
  assert (E : parseCSV infinityCSV
              = [{| date := js "2024-01-03"; description := js "Bonus";
                    amount := Infinity |}]) by (vm_compute; reflexivity).
  split; [exact E|]. rewrite E. intros H.
  apply Forall_inv in H. discriminate H.
Qed.

(** ** C2: the totals *)

Lemma fold_add_filter (p : number -> bool) (ts : list Transaction)
    (sum : number) :
  fold_left (fun sum t => add sum (amount t))
            (List.filter (fun t => p (amount t)) ts) sum
  = sumWhere p sum ts.
Proof.
  revert sum. induction ts as [|t ts IH]; intros sum; simpl; [reflexivity|].
  destruct (p (amount t)); simpl; apply IH.
Qed.

Lemma filter_skips {A : Type} (p : A -> bool) (l1 l2 : list A) (z : A) :
  p z = false -> List.filter p (l1 ++ z :: l2) = List.filter p (l1 ++ l2).
Proof.
  intros Hz. rewrite !List.filter_app. simpl. now rewrite Hz.
Qed.

(** *** Sums of integers are exact *)

Module Integers.

Local Open Scope Z_scope.

Lemma iter_pos_iter {A : Type} (f : A -> A) (n : positive) (x : A) :
  SpecFloat.iter_pos f n x = Pos.iter f x n.
Proof.
  revert x. induction n as [n IH|n IH|]; intros x;
    cbn [SpecFloat.iter_pos Pos.iter].
  - now rewrite !IH, !Pos.iter_swap.
  - now rewrite !IH.
  - reflexivity.
Qed.

Lemma digits2_iter (p k : positive) :
  digits2_pos (Pos.iter xO p k) = (digits2_pos p + k)%positive.
Proof.
  induction k as [|k IH] using Pos.peano_ind.
  - cbn. now rewrite Pos.add_1_r.
  - rewrite Pos.iter_succ. cbn [digits2_pos]. now rewrite IH, Pos.add_succ_r.
Qed.

Lemma digits2_shiftl (p : positive) (k : N) :
  Z.pos (digits2_pos (Pos.shiftl p k)) = Z.pos (digits2_pos p) + Z.of_N k.
Proof.
  destruct k as [|k]; unfold Pos.shiftl; cbn [Z.of_N]; [lia|].
  rewrite digits2_iter. lia.
Qed.

Lemma shiftl_shiftl (p : positive) (a b : N) :
  Pos.shiftl (Pos.shiftl p a) b = Pos.shiftl p (a + b).
Proof.
  destruct a as [|a], b as [|b]; try reflexivity.
  change (Pos.shiftl (Pos.shiftl p (N.pos a)) (N.pos b))
    with (Pos.iter xO (Pos.iter xO p a) b).
  change (Pos.shiftl p (N.pos a + N.pos b)) with (Pos.iter xO p (a + b)).
  now rewrite Pos.add_comm, Pos.iter_add.
Qed.

Lemma shiftl_add (p q : positive) (k : N) :
  (Pos.shiftl p k + Pos.shiftl q k)%positive = Pos.shiftl (p + q) k.
Proof.
  destruct k as [|k]; unfold Pos.shiftl; [reflexivity|].
  induction k as [|k IH] using Pos.peano_ind; [reflexivity|].
  rewrite !Pos.iter_succ.
  change ((Pos.iter xO p k)~0 + (Pos.iter xO q k)~0)%positive
    with ((Pos.iter xO p k + Pos.iter xO q k)~0)%positive.
  now rewrite IH.
Qed.

Lemma shr_iter (r j : positive) :
  Pos.iter shr_1 {| shr_m := Z.pos (Pos.iter xO r j); shr_r := false;
                    shr_s := false |} j
  = {| shr_m := Z.pos r; shr_r := false; shr_s := false |}.
Proof.
  induction j as [|j IH] using Pos.peano_ind; [reflexivity|].
  rewrite (Pos.iter_succ j _ xO), Pos.iter_succ, <- Pos.iter_swap.
  exact IH.
Qed.

Lemma digits2_size (p : positive) : digits2_pos p = Pos.size p.
Proof. induction p as [p IH|p IH|]; cbn; now rewrite ?IH. Qed.

Lemma digits2_bound (p : positive) :
  Z.pos p < 2 ^ 53 -> 1 <= Z.pos (digits2_pos p) <= 53.
Proof.
  intros H. split; [lia|]. rewrite digits2_size.
  pose proof (Pos.size_le p) as L.
  apply Pos2Z.pos_le_pos in L. rewrite Pos2Z.inj_pow in L.
  change (Z.pos p~0) with (2 * Z.pos p) in L.
  destruct (Z.le_gt_cases (Z.pos (Pos.size p)) 53) as [|G]; [assumption|].
  assert (2 ^ 54 <= 2 ^ Z.pos (Pos.size p)) by (apply Z.pow_le_mono_r; lia).
  lia.
Qed.

Lemma shl_align_le (m : positive) (e e' : Z) :
  e' <= e -> shl_align m e e' = (Pos.shiftl m (Z.to_N (e - e')), e').
Proof.
  intros H. unfold shl_align.
  destruct (e' - e) as [|d|d] eqn:E; try lia.
  - replace e' with e by lia. now rewrite Z.sub_diag.
  - replace (e - e') with (Z.pos d) by lia. reflexivity.
Qed.

(** Rounding a mantissa of 53 digits changes nothing. *)
Lemma shr_fexp_canonical (m : positive) (e : Z) :
  Z.pos (digits2_pos m) = 53 -> -1074 <= e ->
  shr_fexp prec emax (Z.pos m) e loc_Exact
  = ({| shr_m := Z.pos m; shr_r := false; shr_s := false |}, e).
Proof.
  intros Hd He. unfold shr_fexp, fexp, emin, prec, emax.
  cbn [Zdigits2]. rewrite Hd.
  replace (Z.max (53 + e - 53) (3 - 1024 - 53) - e) with 0 by lia.
  reflexivity.
Qed.

Lemma binary_round_aux_canonical (s : bool) (m : positive) (e : Z) :
  Z.pos (digits2_pos m) = 53 -> -1074 <= e <= 971 ->
  binary_round_aux prec emax s (Z.pos m) e loc_Exact = S754_finite s m e.
Proof.
  intros Hd He. unfold binary_round_aux.
  rewrite (shr_fexp_canonical m e Hd) by lia.
  cbn [shr_m loc_of_shr_record round_nearest_even].
  rewrite (shr_fexp_canonical m e Hd) by lia.
  cbn [shr_m]. unfold emax, prec.
  destruct (e <=? 1024 - 53) eqn:E; [reflexivity|].
  apply Z.leb_gt in E. lia.
Qed.

(** Rounding the integer [p * 2^k], written with exponent [-k], gives the
    Number of [p]. *)
Lemma binary_round_shiftl (s : bool) (p : positive) (k : N) :
  Z.pos p < 2 ^ 53 ->
  binary_round prec emax s (Pos.shiftl p k) (- Z.of_N k) = canon s p.
Proof.
  intros Hp. pose proof (digits2_bound p Hp) as Hd.
  set (d := Z.pos (digits2_pos p)) in *.
  assert (Hm : Z.pos (digits2_pos (Pos.shiftl p (Z.to_N (53 - d)))) = 53).
  { rewrite digits2_shiftl. fold d. lia. }
  unfold binary_round. rewrite digits2_shiftl. fold d.
  replace (fexp prec emax (d + Z.of_N k + - Z.of_N k)) with (d - 53)
    by (unfold fexp, emin, prec, emax; lia).
  destruct (Z.le_gt_cases (d - 53) (- Z.of_N k)) as [L|G].
  - rewrite (shl_align_le _ _ _ L), shiftl_shiftl.
    replace (k + Z.to_N (- Z.of_N k - (d - 53)))%N with (Z.to_N (53 - d))
      by lia.
    unfold canon. fold d. apply binary_round_aux_canonical; [exact Hm|lia].
  - unfold shl_align.
    destruct (d - 53 - - Z.of_N k) as [|j|j] eqn:E; try lia.
    unfold binary_round_aux.
    assert (Hs : shr_fexp prec emax (Z.pos (Pos.shiftl p k)) (- Z.of_N k)
                   loc_Exact
                 = ({| shr_m := Z.pos (Pos.shiftl p (Z.to_N (53 - d)));
                       shr_r := false; shr_s := false |}, d - 53)).
    { unfold shr_fexp. cbn [Zdigits2]. rewrite digits2_shiftl. fold d.
      replace (fexp prec emax (d + Z.of_N k + - Z.of_N k) - - Z.of_N k)
        with (Z.pos j) by (unfold fexp, emin, prec, emax; lia).
      unfold shr. cbn [shr_record_of_loc]. rewrite iter_pos_iter.
      replace k with (Z.to_N (53 - d) + N.pos j)%N by lia.
      rewrite <- shiftl_shiftl.
      change (Pos.shiftl (Pos.shiftl p (Z.to_N (53 - d))) (N.pos j))
        with (Pos.iter xO (Pos.shiftl p (Z.to_N (53 - d))) j).
      rewrite shr_iter. f_equal. lia. }
    rewrite Hs. cbn [shr_m loc_of_shr_record round_nearest_even].
    rewrite (shr_fexp_canonical _ _ Hm) by lia.
    cbn [shr_m]. unfold canon, emax, prec. fold d.
    destruct (d - 53 <=? 1024 - 53) eqn:E1; [reflexivity|].
    apply Z.leb_gt in E1. lia.
Qed.

Lemma ofInteger_canon (n : Z) :
  Z.abs n < 2 ^ 53 ->
  ofInteger n = match n with
                | 0 => zero
                | Z.pos p => canon false p
                | Z.neg p => canon true p
                end.
Proof.
  intros H. unfold ofInteger, ofDecimal. destruct n as [|p|p];
    [reflexivity| |].
  - change (Z.pos p <? 0) with false. change (Z.pos p =? 0) with false.
    change (0 <=? 0) with true. change (10 ^ 0) with 1. cbv iota.
    rewrite Z.mul_1_r. exact (binary_round_shiftl false p 0 H).
  - change (Z.neg p <? 0) with true. change (- Z.neg p) with (Z.pos p).
    change (Z.pos p =? 0) with false.
    change (0 <=? 0) with true. change (10 ^ 0) with 1. cbv iota.
    rewrite Z.mul_1_r.
    change (binary_normalize prec emax (Z.pos p) 0 false)
      with (binary_round prec emax false (Pos.shiftl p 0) (- Z.of_N 0)).
    now rewrite (binary_round_shiftl false p 0 H).
Qed.

Lemma add_canon (s : bool) (p q : positive) :
  Z.pos (p + q) < 2 ^ 53 ->
  add (canon s p) (canon s q) = canon s (p + q).
Proof.
  intros H.
  assert (Hp : Z.pos p < 2 ^ 53) by lia.
  assert (Hq : Z.pos q < 2 ^ 53) by lia.
  pose proof (digits2_bound p Hp) as Dp.
  pose proof (digits2_bound q Hq) as Dq.
  unfold add, canon, SFadd.
  set (dp := Z.pos (digits2_pos p)) in *.
  set (dq := Z.pos (digits2_pos q)) in *.
  set (ez := Z.min (dp - 53) (dq - 53)).
  rewrite (shl_align_le _ (dp - 53) ez) by lia.
  rewrite (shl_align_le _ (dq - 53) ez) by lia.
  cbn [fst]. rewrite !shiftl_shiftl.
  replace (Z.to_N (53 - dp) + Z.to_N (dp - 53 - ez))%N with (Z.to_N (- ez))
    by lia.
  replace (Z.to_N (53 - dq) + Z.to_N (dq - 53 - ez))%N with (Z.to_N (- ez))
    by lia.
  replace (cond_Zopp s (Z.pos (Pos.shiftl p (Z.to_N (- ez))))
           + cond_Zopp s (Z.pos (Pos.shiftl q (Z.to_N (- ez)))))
    with (cond_Zopp s (Z.pos (Pos.shiftl (p + q) (Z.to_N (- ez)))))
    by (rewrite <- shiftl_add; destruct s; cbn [cond_Zopp]; lia).
  replace ez with (- Z.of_N (Z.to_N (- ez))) at 2 by lia.
  destruct s; cbn [cond_Zopp Z.opp binary_normalize];
    apply binary_round_shiftl; exact H.
Qed.

Lemma gt_ofInteger (n : Z) :
  Z.abs n < 2 ^ 53 -> gt (ofInteger n) zero = (0 <? n).
Proof. intros H. rewrite (ofInteger_canon n H). now destruct n. Qed.

Lemma lt_ofInteger (n : Z) :
  Z.abs n < 2 ^ 53 -> lt (ofInteger n) zero = (n <? 0).
Proof. intros H. rewrite (ofInteger_canon n H). now destruct n. Qed.

Lemma add_ofInteger (a b : Z) :
  0 <= a * b -> Z.abs (a + b) < 2 ^ 53 -> b <> 0 ->
  add (ofInteger a) (ofInteger b) = ofInteger (a + b).
Proof.
  intros Hs H Hb.
  assert (Ha : Z.abs a < 2 ^ 53) by nia.
  assert (Hb' : Z.abs b < 2 ^ 53) by nia.
  rewrite (ofInteger_canon a Ha), (ofInteger_canon b Hb'),
    (ofInteger_canon _ H).
  destruct a as [|p|p], b as [|q|q]; try contradiction; try reflexivity;
    try lia; cbn [Z.add]; now apply add_canon.
Qed.

Lemma sumZ_abs_nonneg (ns : list Z) : 0 <= sumZ (List.map Z.abs ns).
Proof.
  induction ns as [|n ns IH]; [cbn; lia|].
  unfold sumZ in *. cbn [List.map fold_right]. lia.
Qed.

Lemma sumZ_negatives (ns : list Z) :
  - sumZ (List.map Z.abs ns)
  <= sumZ (List.filter (fun n => n <? 0) ns) <= 0.
Proof.
  induction ns as [|n ns IH]; [cbn; lia|].
  cbn [List.filter List.map]. destruct (n <? 0) eqn:E;
    unfold sumZ in *; cbn [fold_right]; lia.
Qed.

Lemma sumWhere_income (ts : list Transaction) (ns : list Z) (S : Z) :
  List.map amount ts = List.map ofInteger ns ->
  0 <= S -> S + sumZ (List.map Z.abs ns) < 2 ^ 53 ->
  sumWhere (fun a => gt a zero) (ofInteger S) ts
  = ofInteger (S + sumZ (List.filter (fun n => 0 <? n) ns)).
Proof.
  revert ns S. induction ts as [|t ts IH]; intros [|n ns] S E HS B;
    try discriminate E.
  - cbn. now rewrite Z.add_0_r.
  - cbn [List.map] in E. injection E as Et E.
    cbn [List.map sumZ fold_right] in B. fold (sumZ (List.map Z.abs ns)) in B.
    pose proof (sumZ_abs_nonneg ns) as P.
    cbn [sumWhere List.filter]. rewrite Et, gt_ofInteger by lia.
    destruct (0 <? n) eqn:En.
    + apply Z.ltb_lt in En. rewrite add_ofInteger by nia.
      rewrite (IH ns (S + n) E) by lia.
      cbn [sumZ fold_right]. f_equal. unfold sumZ. lia.
    + apply Z.ltb_ge in En. apply (IH ns S E HS). lia.
Qed.

Lemma sumWhere_expenses (ts : list Transaction) (ns : list Z) (S : Z) :
  List.map amount ts = List.map ofInteger ns ->
  S <= 0 -> - S + sumZ (List.map Z.abs ns) < 2 ^ 53 ->
  sumWhere (fun a => lt a zero) (ofInteger S) ts
  = ofInteger (S + sumZ (List.filter (fun n => n <? 0) ns)).
Proof.
  revert ns S. induction ts as [|t ts IH]; intros [|n ns] S E HS B;
    try discriminate E.
  - cbn. now rewrite Z.add_0_r.
  - cbn [List.map] in E. injection E as Et E.
    cbn [List.map sumZ fold_right] in B. fold (sumZ (List.map Z.abs ns)) in B.
    pose proof (sumZ_abs_nonneg ns) as P.
    cbn [sumWhere List.filter]. rewrite Et, lt_ofInteger by lia.
    destruct (n <? 0) eqn:En.
    + apply Z.ltb_lt in En. rewrite add_ofInteger by nia.
      rewrite (IH ns (S + n) E) by lia.
      cbn [sumZ fold_right]. f_equal. unfold sumZ. lia.
    + apply Z.ltb_ge in En. apply (IH ns S E HS). lia.
Qed.

Lemma abs_ofInteger (n : Z) :
  n <= 0 -> Z.abs n < 2 ^ 53 -> abs (ofInteger n) = ofInteger (- n).
Proof.
  intros Hn H. rewrite (ofInteger_canon n H), (ofInteger_canon (- n)) by lia.
  destruct n as [|p|p]; try reflexivity. lia.
Qed.

End Integers.

(** C2.  The income embedded in the prompt is the sum, in list order from
    zero, of the amounts greater than zero; the expenses embedded are the
    absolute value of the sum of the amounts less than zero; these sums are
    binary64 additions, and they are exact on integers: when the amounts
    are integers whose absolute values add up to less than [2^53], the
    income is the integer sum of the positive ones and the expenses the
    integer sum of the negative ones, without its sign.  A record whose
    amount is zero changes neither; and the two records of the example give
    count 2, income 2500 and expenses 42.5. *)
Theorem C2_summary_totals (NumberToString : number -> jsstring)
    (ts : list Transaction) :
  totalIncome ts = sumWhere (fun a => gt a zero) zero ts
  /\ abs (totalExpenses ts) = abs (sumWhere (fun a => lt a zero) zero ts)
  /\ (forall ns : list Z,
        List.map amount ts = List.map ofInteger ns ->
        (sumZ (List.map Z.abs ns) < 2 ^ 53)%Z ->
        totalIncome ts
        = ofInteger (sumZ (List.filter (fun n => (0 <? n)%Z) ns))
        /\ abs (totalExpenses ts)
           = ofInteger (- sumZ (List.filter (fun n => (n <? 0)%Z) ns)))
  /\ (forall l1 l2 d e s,
        let z := {| date := d; description := e; amount := S754_zero s |} in
        totalIncome (l1 ++ z :: l2) = totalIncome (l1 ++ l2)
        /\ totalExpenses (l1 ++ z :: l2) = totalExpenses (l1 ++ l2))
  /\ (parseCSV exampleCSV
      = [{| date := js "2024-01-01"; description := js "Salary";
            amount := ofDecimal 2500 0 |};
         {| date := js "2024-01-02"; description := js "Groceries";
            amount := SFopp (ofDecimal 4250 (-2)) |}]
      /\ totalIncome (parseCSV exampleCSV) = ofDecimal 2500 0
      /\ abs (totalExpenses (parseCSV exampleCSV)) = ofDecimal 425 (-1)
      /\ summary NumberToString (parseCSV exampleCSV)
         = js "The user has uploaded a CSV with 2 transactions. Total income: 2500.00, Total expenses: 42.50.").
Proof.
  assert (Hi : totalIncome ts = sumWhere (fun a => gt a zero) zero ts)
    by apply (fold_add_filter (fun a => gt a zero)).
  assert (He : totalExpenses ts = sumWhere (fun a => lt a zero) zero ts)
    by apply (fold_add_filter (fun a => lt a zero)).
  split; [exact Hi|]. split; [now rewrite He|]. split; [|split].
  - intros ns E B.
    pose proof (Integers.sumZ_abs_nonneg ns) as P.
    pose proof (Integers.sumZ_negatives ns) as N.
    rewrite Hi, He.
    change (sumWhere (fun a => gt a zero) zero ts)
      with (sumWhere (fun a => gt a zero) (ofInteger 0) ts).
    change (sumWhere (fun a => lt a zero) zero ts)
      with (sumWhere (fun a => lt a zero) (ofInteger 0) ts).
    rewrite (Integers.sumWhere_income ts ns 0 E),
      (Integers.sumWhere_expenses ts ns 0 E) by lia.
    split; [reflexivity|].
    rewrite Integers.abs_ofInteger by lia. reflexivity.
  - intros l1 l2 d e s z. unfold totalIncome, totalExpenses.
    rewrite (filter_skips (fun t => gt (amount t) zero) l1 l2 z),
            (filter_skips (fun t => lt (amount t) zero) l1 l2 z);
      [split; reflexivity | now destruct s | now destruct s].
  - repeat split; vm_compute; reflexivity.
Qed.

(** ** The page: what each function does to the log *)

Lemma lookup_snoc2 {A : Type} (l : list A) (a b : A) :
  (l ++ [a; b]) !! (length l + 1) = Some b.
Proof.
  rewrite lookup_app_r by lia.
  replace (length l + 1 - length l) with 1 by lia. reflexivity.
Qed.

Lemma insert_snoc2 {A : Type} (l : list A) (a b c : A) :
  <[length l + 1 := c]> (l ++ [a; b]) = l ++ [a; c].
Proof.
  rewrite insert_app_r_alt by lia.
  replace (length l + 1 - length l) with 1 by lia. reflexivity.
Qed.


Section Lifecycle.

Variable API_KEY : option jsstring.
Variable NumberToString : number -> jsstring.
Variable injected : jsstring -> nat.

(** [sendMessage] up to its first [await], with a session. *)
Lemma sendMessage_session (text : jsstring) (st : Page) (c : Chat) :
  truthy (trim text) = true -> chat st = Some c ->
  sendMessage NumberToString text st
  = {| chat := Some {| systemInstruction := systemInstruction c;
                       sent := sent c ++ [promptOf NumberToString st text] |};
       userProfile := userProfile st; uploadedFile := uploadedFile st;
       transactions := transactions st;
       chatHistory := chatHistory st
                      ++ [Message user text; Message model loadingIndicator];
       chatInputValue := [];
       chatInputDisabled := true; sendButtonDisabled := true;
       attachButtonDisabled := true;
       pending := <[length (chatHistory st) + 1 := Connecting]> (pending st) |}.
Proof.
  intros Ht Hc. unfold sendMessage. rewrite Ht.
  cbn -[promptOf loadingIndicator]. rewrite Hc.
  rewrite length_app, <- app_assoc. reflexivity.
Qed.

(** [sendMessage] without a session: it fails before any [await]. *)
Lemma sendMessage_no_session (text : jsstring) (st : Page) :
  truthy (trim text) = true -> chat st = None ->
  sendMessage NumberToString text st
  = {| chat := None;
       userProfile := userProfile st; uploadedFile := uploadedFile st;
       transactions := transactions st;
       chatHistory := chatHistory st
                      ++ [Message user text; Message model failureMessage];
       chatInputValue := [];
       chatInputDisabled := false; sendButtonDisabled := false;
       attachButtonDisabled := false;
       pending := pending st |}.
Proof.
  intros Ht Hc. unfold sendMessage. rewrite Ht.
  cbn -[promptOf loadingIndicator failureMessage].
  rewrite Hc. unfold finallyBlock, catchBlock, setInnerHTML.
  cbn -[loadingIndicator failureMessage].
  rewrite length_app, <- app_assoc. cbn [length app].
  rewrite lookup_snoc2. cbn -[loadingIndicator failureMessage].
  rewrite insert_snoc2, <- Hc. reflexivity.
Qed.

Lemma sendMessage_blank (text : jsstring) (st : Page) :
  truthy (trim text) = false -> sendMessage NumberToString text st = st.
Proof. intros Ht. unfold sendMessage. now rewrite Ht. Qed.

(** *** Resuming a suspended send *)

Lemma setInnerHTML_message (el : nat) (html old : jsstring) (sender : Sender)
    (st : Page) :
  chatHistory st !! el = Some (Message sender old) ->
  setInnerHTML el html st
  = setChatHistory (<[el := Message sender html]> (chatHistory st)) st.
Proof. intros H. unfold setInnerHTML. now rewrite H. Qed.

Lemma resume_opened (el : nat) (old : jsstring) (st : Page) :
  pending st !! el = Some Connecting ->
  chatHistory st !! el = Some (Message model old) ->
  resume injected el Opened st = receiving el [] st.
Proof.
  intros Hp Hl. unfold resume. rewrite Hp.
  now rewrite (setInnerHTML_message _ _ _ _ _ Hl).
Qed.

Lemma receiving_lookup (el : nat) (buf old : jsstring) (st : Page) :
  chatHistory st !! el = Some (Message model old) ->
  pending (receiving el buf st) !! el = Some (Receiving buf)
  /\ chatHistory (receiving el buf st) !! el
     = Some (Message model (formattedText buf)).
Proof.
  intros Hl. apply lookup_lt_Some in Hl. cbn. split.
  - apply lookup_insert_eq.
  - now apply list_lookup_insert_eq.
Qed.

Lemma resume_chunk (el : nat) (buf text old : jsstring) (st : Page) :
  chatHistory st !! el = Some (Message model old) ->
  resume injected el (Chunk text) (receiving el buf st)
  = receiving el (buf ++ text) st.
Proof.
  intros Hl. destruct (receiving_lookup el buf old st Hl) as [Hp Hh].
  unfold resume. rewrite Hp.
  rewrite (setInnerHTML_message _ _ _ _ _ Hh).
  unfold receiving. cbn.
  now rewrite insert_insert_eq, list_insert_insert_eq.
Qed.

Lemma run_chunks (el : nat) (old : jsstring) (st : Page)
    (chunks : list jsstring) (buf : jsstring) :
  chatHistory st !! el = Some (Message model old) ->
  run API_KEY NumberToString injected (receiving el buf st)
      (List.map (Stream el) (List.map Chunk chunks))
  = receiving el (buf ++ concat chunks) st.
Proof.
  intros Hl. revert buf.
  induction chunks as [|c chunks IH]; intros buf; cbn [List.map concat].
  - now rewrite app_nil_r.
  - unfold run in *. cbn [fold_left step].
    rewrite (resume_chunk _ _ _ _ _ Hl), IH. now rewrite <- app_assoc.
Qed.

Lemma resume_threw (el : nat) (buf old : jsstring) (st : Page) :
  chatHistory st !! el = Some (Message model old) ->
  resume injected el Threw (receiving el buf st) = failed el st.
Proof.
  intros Hl. destruct (receiving_lookup el buf old st Hl) as [Hp Hh].
  unfold resume. rewrite Hp. unfold finallyBlock, catchBlock, setInnerHTML.
  cbn -[failureMessage formattedText].
  apply lookup_lt_Some in Hl.
  rewrite list_lookup_insert_eq by exact Hl.
  unfold failed. cbn -[failureMessage formattedText].
  now rewrite list_insert_insert_eq, delete_insert_eq.
Qed.

Lemma resume_rejected (el : nat) (old : jsstring) (st : Page) :
  pending st !! el = Some Connecting ->
  chatHistory st !! el = Some (Message model old) ->
  resume injected el Rejected st = failed el st.
Proof.
  intros Hp Hl. unfold resume. rewrite Hp.
  unfold finallyBlock, catchBlock, setInnerHTML.
  cbn -[failureMessage]. now rewrite Hl.
Qed.

Lemma renderSuggestedPrompts_blockOf (st : Page) :
  renderSuggestedPrompts st
  = if throws (userProfile st) then None
    else Some (setChatHistory (chatHistory st ++ blockOf (userProfile st))
                 st).
Proof.
  unfold renderSuggestedPrompts, blockOf, throws.
  destruct (promptsFor (userProfile st)) as [[|q qs]|[[|n]|]];
    cbn [length Nat.eqb]; try reflexivity;
    rewrite app_nil_r; now destruct st.
Qed.

(** The normal end of a stream: a block is appended, or nothing is, or
    [renderSuggestedPrompts] throws and the send fails. *)
Lemma resume_Ended (el : nat) (buf : jsstring) (st : Page) :
  pending st !! el = Some (Receiving buf) ->
  resume injected el Ended st
  = let st1 := setPending (delete el (pending st)) st in
    if (userMessages injected (chatHistory st) =? 1)
       && throws (userProfile st)
    then setFormState false (setInnerHTML el failureMessage st1)
    else setFormState false
           (setChatHistory
              (chatHistory st
               ++ (if userMessages injected (chatHistory st) =? 1
                   then blockOf (userProfile st) else [])) st1).
Proof.
  intros Hp. unfold resume. rewrite Hp. cbv zeta.
  cbn [chatHistory setPending].
  destruct (userMessages injected (chatHistory st) =? 1); cbn [andb].
  - rewrite renderSuggestedPrompts_blockOf. cbn [userProfile setPending].
    now destruct (throws (userProfile st)).
  - rewrite app_nil_r. now destruct st.
Qed.

Lemma resume_ended (el : nat) (buf old : jsstring) (st : Page) :
  chatHistory st !! el = Some (Message model old) ->
  resume injected el Ended (receiving el buf st)
  = let h := <[el := Message model (formattedText buf)]> (chatHistory st) in
    if (userMessages injected h =? 1) && throws (userProfile st)
    then failed el st
    else setFormState false
           (setChatHistory
              (h ++ (if userMessages injected h =? 1
                     then blockOf (userProfile st) else []))
              (setPending (delete el (pending st)) st)).
Proof.
  intros Hl. destruct (receiving_lookup el buf old st Hl) as [Hp Hh].
  rewrite (resume_Ended _ _ _ Hp). cbv zeta.
  change (chatHistory (receiving el buf st))
    with (<[el := Message model (formattedText buf)]> (chatHistory st)).
  change (userProfile (receiving el buf st)) with (userProfile st).
  destruct (_ && _).
  - rewrite (setInnerHTML_message el failureMessage (formattedText buf)
               model) by exact Hh.
    unfold failed, receiving.
    cbn -[failureMessage formattedText].
    now rewrite list_insert_insert_eq, delete_insert_eq.
  - unfold receiving. cbn -[formattedText blockOf userMessages].
    now rewrite delete_insert_eq.
Qed.

(** *** A stream that runs to its end *)

Lemma filter_insert_same {A : Type} (p : A -> bool) (l : list A) (i : nat)
    (a b : A) :
  l !! i = Some a -> p a = false -> p b = false ->
  List.filter p (<[i := b]> l) = List.filter p l.
Proof.
  revert i. induction l as [|x l IH]; intros [|i] H Ea Eb;
    try discriminate H.
  - injection H as ->. simpl. now rewrite Ea, Eb.
  - simpl in *. now rewrite (IH i H Ea Eb).
Qed.

Lemma resume_idle (el : nat) (signal : Signal) (st : Page) :
  pending st !! el = None -> resume injected el signal st = st.
Proof. intros H. unfold resume. now rewrite H. Qed.

Lemma run_idle (el : nat) (signals : list Signal) (st : Page) :
  pending st !! el = None ->
  run API_KEY NumberToString injected st (List.map (Stream el) signals) = st.
Proof.
  intros H. induction signals as [|g gs IH]; [reflexivity|].
  unfold run in *. cbn [List.map fold_left step].
  now rewrite (resume_idle _ _ _ H).
Qed.

Lemma stream_idle (o : Outcome) (st : Page) :
  pending st = ∅ -> stream API_KEY NumberToString injected o st = st.
Proof.
  intros H. unfold stream. apply run_idle. now rewrite H.
Qed.

Lemma run_app (st : Page) (evs1 evs2 : list Event) :
  run API_KEY NumberToString injected st (evs1 ++ evs2)
  = run API_KEY NumberToString injected
      (run API_KEY NumberToString injected st evs1) evs2.
Proof. apply fold_left_app. Qed.

(** The stream of the send that holds the last entry of the log. *)
Lemma stream_outcome (o : Outcome) (old : jsstring) (st : Page) (el : nat) :
  el = length (chatHistory st) - 1 ->
  pending st !! el = Some Connecting ->
  chatHistory st !! el = Some (Message model old) ->
  stream API_KEY NumberToString injected o st
  = match o with
    | Completes chunks =>
        resume injected el Ended (receiving el (concat chunks) st)
    | Fails _ | Refused => failed el st
    end.
Proof.
  intros -> Hp Hl. unfold stream.
  destruct o as [chunks|chunks|]; cbn [signals List.map].
  - rewrite List.map_app. cbn [List.map].
    change (?a :: ?l ++ ?r) with ([a] ++ l ++ r).
    rewrite !run_app. cbn [run fold_left step].
    rewrite (resume_opened _ _ _ Hp Hl).
    fold (run API_KEY NumberToString injected).
    now rewrite (run_chunks _ _ _ _ _ Hl).
  - rewrite List.map_app. cbn [List.map].
    change (?a :: ?l ++ ?r) with ([a] ++ l ++ r).
    rewrite !run_app. cbn [run fold_left step].
    rewrite (resume_opened _ _ _ Hp Hl).
    fold (run API_KEY NumberToString injected).
    rewrite (run_chunks _ _ _ _ _ Hl). cbn [run fold_left step].
    now rewrite (resume_threw _ _ _ _ Hl).
  - cbn [run fold_left step]. now rewrite (resume_rejected _ _ _ Hp Hl).
Qed.

Lemma userEntries_snoc2 (h : list Entry) (text html : jsstring) :
  userEntries (h ++ [Message user text; Message model html])
  = S (userEntries h).
Proof.
  unfold userEntries. rewrite List.filter_app, length_app. simpl. lia.
Qed.

Lemma userEntries_app (h1 h2 : list Entry) :
  userEntries (h1 ++ h2) = userEntries h1 + userEntries h2.
Proof. unfold userEntries. now rewrite List.filter_app, length_app. Qed.

Lemma userMessages_app (h1 h2 : list Entry) :
  userMessages injected (h1 ++ h2)
  = userMessages injected h1 + userMessages injected h2.
Proof. unfold userMessages. now rewrite List.map_app, list_sum_app. Qed.

(** Every user message is an element that matches. *)
Lemma userEntries_le (h : list Entry) :
  userEntries h <= userMessages injected h.
Proof.
  induction h as [|e h IH]; [apply Nat.le_refl|].
  change (userEntries (e :: h)) with (userEntries ([e] ++ h)).
  change (userMessages injected (e :: h))
    with (userMessages injected ([e] ++ h)).
  rewrite userEntries_app, userMessages_app.
  assert (H : userEntries [e] <= userMessages injected [e])
    by (destruct e as [[|] t|ps]; cbn; lia).
  lia.
Qed.

(** A send and its stream, with a session and nothing else in flight. *)
Lemma send_stream_session (text : jsstring) (o : Outcome) (st : Page)
    (c : Chat) :
  truthy (trim text) = true -> chat st = Some c -> pending st = ∅ ->
  stream API_KEY NumberToString injected o (sendMessage NumberToString text st)
  = {| chat := Some {| systemInstruction := systemInstruction c;
                       sent := sent c ++ [promptOf NumberToString st text] |};
       userProfile := userProfile st; uploadedFile := uploadedFile st;
       transactions := transactions st;
       chatHistory :=
         answered injected (userProfile st) (chatHistory st) text o;
       chatInputValue := [];
       chatInputDisabled := false; sendButtonDisabled := false;
       attachButtonDisabled := false;
       pending := ∅ |}.
Proof.
  intros Ht Hc Hp. rewrite (sendMessage_session _ _ _ Ht Hc).
  set (h := chatHistory st).
  rewrite (stream_outcome o loadingIndicator _ (length h + 1)); cycle 1.
  - cbn [chatHistory]. rewrite length_app. cbn [length]. lia.
  - cbn [pending]. apply lookup_insert_eq.
  - cbn [chatHistory]. apply lookup_snoc2.
  - unfold answered. fold h. destruct o as [chunks|chunks|].
    + erewrite resume_ended by (cbn [chatHistory]; apply lookup_snoc2).
      cbv zeta.
      cbn -[formattedText userMessages loadingIndicator blockOf throws
            failureMessage].
      rewrite insert_snoc2.
      destruct (userMessages injected _ =? 1); cbn [andb].
      * destruct (throws (userProfile st)).
        -- unfold failed. cbn -[failureMessage loadingIndicator].
           now rewrite insert_snoc2, Hp, delete_insert_eq, delete_empty.
        -- cbn -[formattedText blockOf].
           now rewrite Hp, delete_insert_eq, delete_empty.
      * cbn -[formattedText]. 
        now rewrite app_nil_r, Hp, delete_insert_eq, delete_empty.
    + unfold failed. cbn -[failureMessage loadingIndicator].
      now rewrite insert_snoc2, Hp, delete_insert_eq, delete_empty.
    + unfold failed. cbn -[failureMessage loadingIndicator].
      now rewrite insert_snoc2, Hp, delete_insert_eq, delete_empty.
Qed.

(** In a log that holds a user message already, a send appends its two
    entries and nothing else. *)
Lemma answered_later (profile : option jsstring) (h : list Entry)
    (text : jsstring) (o : Outcome) :
  1 <= userEntries h ->
  answered injected profile h text o
  = h ++ [Message user text; Message model (shown o)].
Proof.
  intros Hu. unfold answered. cbv zeta.
  pose proof (userEntries_le
                (h ++ [Message user text; Message model (shown o)])) as H.
  rewrite userEntries_snoc2 in H.
  destruct (userMessages injected _ =? 1) eqn:E;
    [apply Nat.eqb_eq in E; lia|].
  now rewrite andb_false_r.
Qed.

(** *** Turns of a conversation *)

Lemma turn_unfold (st : Page) (text : jsstring) (o : Outcome) :
  turn API_KEY NumberToString injected st (text, o)
  = stream API_KEY NumberToString injected o
      (sendMessage NumberToString text (setChatInputValue text st)).
Proof. reflexivity. Qed.

(** A turn after the first user message appends no block. *)
Lemma turn_appends (st : Page) (t : jsstring * Outcome) :
  pending st = ∅ -> 1 <= userEntries (chatHistory st) ->
  let st' := turn API_KEY NumberToString injected st t in
  pending st' = ∅
  /\ exists rest, chatHistory st' = chatHistory st ++ rest
                   /\ List.filter isBlock rest = [].
Proof.
  intros Hp Hu. destruct t as [text o]. cbv zeta. rewrite turn_unfold.
  set (st1 := setChatInputValue text st).
  destruct (truthy (trim text)) eqn:Ht.
  - destruct (chat st) as [c|] eqn:Hc.
    + rewrite (send_stream_session text o st1 c Ht Hc Hp).
      cbn [pending chatHistory].
      split; [reflexivity|].
      change (chatHistory st1) with (chatHistory st).
      rewrite (answered_later _ _ _ _ Hu). eexists. split; reflexivity.
    + assert (E : sendMessage NumberToString text st1
                  = setChatHistory
                      (chatHistory st
                       ++ [Message user text; Message model failureMessage])
                      (setFormState false (setChatInputValue [] st))).
      { rewrite (sendMessage_no_session text st1 Ht Hc).
        unfold setChatHistory, setFormState. cbn. now rewrite Hc. }
      rewrite E, stream_idle by exact Hp. cbn [pending chatHistory].
      split; [exact Hp|]. eexists. split; reflexivity.
  - rewrite (sendMessage_blank text st1 Ht), stream_idle by exact Hp.
    split; [exact Hp|]. exists []. now rewrite app_nil_r.
Qed.

Lemma turns_append (turns : list (jsstring * Outcome)) (st : Page) :
  pending st = ∅ -> 1 <= userEntries (chatHistory st) ->
  exists rest,
    chatHistory (fold_left (turn API_KEY NumberToString injected) turns st)
    = chatHistory st ++ rest
    /\ List.filter isBlock rest = [].
Proof.
  revert st. induction turns as [|t turns IH]; intros st Hp Hu.
  - exists []. now rewrite app_nil_r.
  - destruct (turn_appends st t Hp Hu) as [Hp' [r1 [E1 B1]]].
    cbn [fold_left].
    destruct (IH (turn API_KEY NumberToString injected st t) Hp')
      as [r2 [E2 B2]].
    + rewrite E1, userEntries_app. lia.
    + exists (r1 ++ r2). rewrite E2, E1, <- app_assoc. split; [reflexivity|].
      now rewrite List.filter_app, B1, B2.
Qed.

Lemma trimStart_snoc (l : jsstring) (c : code_unit) :
  isTrimmed c = false -> trimStart (l ++ [c]) <> [].
Proof.
  intros Hc. induction l as [|a l IH]; cbn [app trimStart].
  - now rewrite Hc.
  - now destruct (isTrimmed a).
Qed.

Lemma trim_head (c : code_unit) (s : jsstring) :
  isTrimmed c = false -> truthy (trim (c :: s)) = true.
Proof.
  intros Hc. unfold trim, trimEnd. cbn [trimStart]. rewrite Hc.
  cbn [rev]. pose proof (trimStart_snoc (rev s) c Hc) as H.
  destruct (trimStart (rev s ++ [c])) as [|a t]; [contradiction|].
  cbn [rev]. now destruct (rev t).
Qed.

Lemma greeting_not_blank (p : jsstring) : truthy (trim (greetingOf p)) = true.
Proof. now apply (trim_head 72%N). Qed.

(** The first step of a conversation. *)
Lemma profile_click (p : jsstring) (st : Page) :
  p <> [] ->
  step API_KEY NumberToString injected st (ProfileButtonClick (Some p))
  = sendMessage NumberToString (greetingOf p)
      (initializeChat API_KEY (setUserProfile (Some p) st)).
Proof. intros Hp. destruct p as [|a p]; [contradiction|reflexivity]. Qed.

(** The page when the stream of the greeting is over. *)
Lemma greeting_over (p : jsstring) (o : Outcome) :
  p <> [] ->
  let st := stream API_KEY NumberToString injected o
              (step API_KEY NumberToString injected initialPage
                    (ProfileButtonClick (Some p))) in
  pending st = ∅
  /\ chatHistory st
     = if configured API_KEY
       then answered injected (Some p) [] (greetingOf p) o
       else [Message model configurationMessage;
             Message user (greetingOf p); Message model failureMessage].
Proof.
  intros Hp. cbv zeta.
  pose proof (greeting_not_blank p) as Ht.
  rewrite (profile_click p _ Hp). unfold initializeChat.
  destruct (configured API_KEY).
  - erewrite send_stream_session; [|exact Ht|reflexivity|reflexivity].
    split; reflexivity.
  - rewrite sendMessage_no_session; [|exact Ht|reflexivity].
    rewrite stream_idle by reflexivity. split; reflexivity.
Qed.

Lemma profileTags_known (p : jsstring) :
  In p profileTags ->
  p <> [] /\ throws (Some p) = false
  /\ blockOf (Some p) = [SuggestedPrompts (suggestedPrompts p)]
  /\ length (suggestedPrompts p) = 3.
Proof. intros Hp. each_profile Hp; repeat split; discriminate. Qed.

(** The test of the count after the greeting and its response. *)
Lemma userMessages_greeting (text html : jsstring) :
  (userMessages injected [Message user text; Message model html] =? 1)
  = (injected text + injected html =? 0).
Proof.
  unfold userMessages. cbn [List.map matching list_sum fold_right].
  rewrite Nat.add_0_r. reflexivity.
Qed.

(** *** Every reachable page is well formed *)

Lemma modelAt_app (h h' : list Entry) (el : nat) :
  modelAt h el -> modelAt (h ++ h') el.
Proof.
  intros [html H]. exists html. now apply lookup_app_l_Some.
Qed.

Lemma modelAt_insert (h : list Entry) (el el' : nat) (html : jsstring) :
  modelAt h el -> modelAt h el' ->
  modelAt (<[el' := Message model html]> h) el.
Proof.
  intros [x H] [y H']. destruct (decide (el' = el)) as [->|Hne].
  - exists html. apply list_lookup_insert_eq. now apply lookup_lt_Some in H.
  - exists x. now rewrite list_lookup_insert_ne.
Qed.

Lemma wellFormed_sendMessage (text : jsstring) (st : Page) :
  wellFormed st -> wellFormed (sendMessage NumberToString text st).
Proof.
  intros W. destruct (truthy (trim text)) eqn:Ht.
  - destruct (chat st) as [c|] eqn:Hc.
    + rewrite (sendMessage_session _ _ _ Ht Hc). intros el ph.
      cbn [pending chatHistory]. intros [[<- _]|[_ H]]%lookup_insert_Some.
      * eexists. apply lookup_snoc2.
      * apply modelAt_app. exact (W el ph H).
    + rewrite (sendMessage_no_session _ _ Ht Hc). intros el ph.
      cbn [pending chatHistory]. intros H.
      apply modelAt_app. exact (W el ph H).
  - now rewrite (sendMessage_blank _ _ Ht).
Qed.

Lemma wellFormed_addMessage (text : jsstring) (st : Page) :
  wellFormed st -> wellFormed (fst (addMessage model text st)).
Proof.
  intros W el ph H. cbn in *. apply modelAt_app. exact (W el ph H).
Qed.

Lemma wellFormed_resume (el : nat) (signal : Signal) (st : Page) :
  wellFormed st -> wellFormed (resume injected el signal st).
Proof.
  intros W. destruct (pending st !! el) as [ph|] eqn:Hp;
    [|now rewrite resume_idle].
  destruct (W el ph Hp) as [old Hl].
  assert (F : forall html,
            wellFormed (setFormState false
                          (setInnerHTML el html
                             (setPending (delete el (pending st)) st)))).
  { intros html el' ph'.
    erewrite setInnerHTML_message by exact Hl.
    cbn [pending chatHistory setPending setChatHistory setFormState].
    intros [_ H]%lookup_delete_Some.
    apply modelAt_insert; [exact (W el' ph' H)|now exists old]. }
  destruct ph as [|buf], signal as [| |text| |];
    try (rewrite (resume_Ended _ _ _ Hp); cbv zeta);
    try (unfold resume; rewrite Hp); try exact W;
    unfold finallyBlock, catchBlock; try apply F.
  - erewrite setInnerHTML_message by exact Hl.
    intros el' ph'. cbn [pending chatHistory setPending setChatHistory].
    intros [[<- _]|[_ H]]%lookup_insert_Some.
    + eexists. apply list_lookup_insert_eq. now apply lookup_lt_Some in Hl.
    + apply modelAt_insert; [exact (W el' ph' H)|now exists old].
  - erewrite setInnerHTML_message by exact Hl.
    intros el' ph'. cbn [pending chatHistory setPending setChatHistory].
    intros [[<- _]|[_ H]]%lookup_insert_Some.
    + eexists. apply list_lookup_insert_eq. now apply lookup_lt_Some in Hl.
    + apply modelAt_insert; [exact (W el' ph' H)|now exists old].
  - destruct (_ && _); [apply F|].
    intros el' ph'.
    cbn [pending chatHistory setPending setChatHistory setFormState].
    intros [_ H]%lookup_delete_Some.
    apply modelAt_app. exact (W el' ph' H).
Qed.

Lemma wellFormed_step (st : Page) (ev : Event) :
  wellFormed st -> wellFormed (step API_KEY NumberToString injected st ev).
Proof.
  intros W. destruct ev as [profile|value| |text|name|text| | |el signal];
    cbn [step].
  - destruct profile as [[|c p]|]; try exact W.
    apply wellFormed_sendMessage. unfold initializeChat.
    destruct (configured API_KEY); [exact W|].
    now apply wellFormed_addMessage.
  - exact W.
  - now apply wellFormed_sendMessage.
  - destruct (isPromptButton text (chatHistory st)); [|exact W].
    now apply wellFormed_sendMessage.
  - exact W.
  - unfold addTransactionAnalysisMessage.
    destruct (0 <? _); now apply wellFormed_addMessage.
  - intros el ph H. apply modelAt_app. exact (W el ph H).
  - exact W.
  - now apply wellFormed_resume.
Qed.

Lemma wellFormed_run (evs : list Event) (st : Page) :
  wellFormed st -> wellFormed (run API_KEY NumberToString injected st evs).
Proof.
  revert st. induction evs as [|ev evs IH]; intros st W; [exact W|].
  apply IH. now apply wellFormed_step.
Qed.

Lemma wellFormed_reachable (evs : list Event) :
  wellFormed (run API_KEY NumberToString injected initialPage evs).
Proof.
  apply wellFormed_run. intros el ph H. cbn in H.
  now rewrite lookup_empty in H.
Qed.

(** *** The two transforms *)





Lemma replaceStrong_cons (c : code_unit) (s : jsstring) :
  noAsterisk c = true -> replaceStrong (c :: s) = c :: replaceStrong s.
Proof.
  unfold noAsterisk. intros H%negb_true_iff.
  unfold replaceStrong. cbn [replaceStrongFrom matchStrong].
  destruct s as [|b s]; [reflexivity|]. now rewrite H.
Qed.


Lemma replaceStrong_plain (s : jsstring) :
  forallb noAsterisk s = true -> replaceStrong s = s.
Proof.
  induction s as [|c s IH]; [reflexivity|]. cbn [forallb].
  intros [Hc Hs]%andb_true_iff.
  now rewrite (replaceStrong_cons _ _ Hc), (IH Hs).
Qed.

(** ** C7: a stream that throws *)


(** ** C8: the streaming loop *)


(** *** Every reachable page is orderly *)

Lemma counts_insert_model (h : list Entry) (el : nat) (old html : jsstring) :
  h !! el = Some (Message model old) ->
  userEntries (<[el := Message model html]> h) = userEntries h
  /\ blocks (<[el := Message model html]> h) = blocks h.
Proof.
  intros H. unfold userEntries, blocks.
  now rewrite !(filter_insert_same _ _ _ _ _ H).
Qed.

Lemma counts_snoc_model (h : list Entry) (html : jsstring) :
  userEntries (h ++ [Message model html]) = userEntries h
  /\ blocks (h ++ [Message model html]) = blocks h.
Proof.
  unfold userEntries, blocks. rewrite !List.filter_app, !length_app.
  cbn. lia.
Qed.

Lemma blocks_snoc2 (h : list Entry) (text html : jsstring) :
  blocks (h ++ [Message user text; Message model html]) = blocks h.
Proof. unfold blocks. rewrite List.filter_app, length_app. cbn. lia. Qed.

Lemma blocks_blockOf (h : list Entry) (profile : option jsstring) :
  blocks (h ++ blockOf profile) <= S (blocks h)
  /\ userEntries (h ++ blockOf profile) = userEntries h.
Proof.
  unfold blocks, userEntries, blockOf.
  rewrite !List.filter_app, !length_app.
  destruct (promptsFor profile) as [[|q qs]|len]; cbn; lia.
Qed.

Lemma orderly_sendMessage (text : jsstring) (st : Page) :
  orderly st -> orderly (sendMessage NumberToString text st).
Proof.
  intros [W [B [Z O]]].
  split; [now apply wellFormed_sendMessage|].
  destruct (truthy (trim text)) eqn:Ht;
    [|rewrite (sendMessage_blank _ _ Ht); auto].
  destruct (chat st) as [c|] eqn:Hc.
  - rewrite (sendMessage_session _ _ _ Ht Hc). cbn [chatHistory pending].
    rewrite userEntries_snoc2, blocks_snoc2.
    split; [exact B|]. split; [discriminate|].
    intros [= Hu]. destruct (Z Hu) as [-> ->].
    rewrite map_size_insert_None by apply lookup_empty.
    rewrite map_size_empty. lia.
  - rewrite (sendMessage_no_session _ _ Ht Hc). cbn [chatHistory pending].
    rewrite userEntries_snoc2, blocks_snoc2.
    split; [exact B|]. split; [discriminate|].
    intros [= Hu]. destruct (Z Hu) as [-> ->]. rewrite map_size_empty. lia.
Qed.

Lemma orderly_addMessage (text : jsstring) (st : Page) :
  orderly st -> orderly (fst (addMessage model text st)).
Proof.
  intros [W [B [Z O]]]. split; [now apply wellFormed_addMessage|].
  cbn [addMessage fst chatHistory pending setChatHistory].
  destruct (counts_snoc_model (chatHistory st) text) as [-> ->]. auto.
Qed.

Lemma orderly_resume (el : nat) (signal : Signal) (st : Page) :
  orderly st -> orderly (resume injected el signal st).
Proof.
  intros [W [B [Z O]]]. split; [now apply wellFormed_resume|].
  destruct (pending st !! el) as [ph|] eqn:Hp;
    [|rewrite resume_idle; auto].
  destruct (W el ph Hp) as [old Hl].
  assert (Hu : userEntries (chatHistory st) <> 0).
  { intros Hu. destruct (Z Hu) as [E _]. rewrite E in Hp.
    now rewrite lookup_empty in Hp. }
  assert (Hs : size (pending st) <> 0).
  { intros Hs. apply map_size_empty_inv in Hs. rewrite Hs in Hp.
    now rewrite lookup_empty in Hp. }
  assert (F : forall html,
            let st' := setFormState false
                         (setInnerHTML el html
                            (setPending (delete el (pending st)) st)) in
            blocks (chatHistory st') <= 1
            /\ (userEntries (chatHistory st') = 0 ->
                pending st' = ∅ /\ blocks (chatHistory st') = 0)
            /\ (userEntries (chatHistory st') = 1 ->
                blocks (chatHistory st') + size (pending st') <= 1)).
  { intros html. cbv zeta. erewrite setInnerHTML_message by exact Hl.
    cbn [pending chatHistory setPending setChatHistory setFormState].
    destruct (counts_insert_model _ _ _ html Hl) as [-> ->].
    rewrite map_size_delete_Some by (eexists; exact Hp).
    split; [exact B|]. split; [easy|]. intros H1. specialize (O H1). lia. }
  destruct ph as [|buf], signal as [| |text| |];
    try (rewrite (resume_Ended _ _ _ Hp); cbv zeta);
    try (unfold resume; rewrite Hp); auto;
    unfold finallyBlock, catchBlock; try apply F.
  - erewrite setInnerHTML_message by exact Hl.
    cbn [pending chatHistory setPending setChatHistory setFormState].
    destruct (counts_insert_model _ _ _ [] Hl) as [-> ->].
    rewrite map_size_insert_Some by (eexists; exact Hp).
    split; [exact B|]. split; [easy|]. exact O.
  - erewrite setInnerHTML_message by exact Hl.
    cbn [pending chatHistory setPending setChatHistory setFormState].
    destruct (counts_insert_model _ _ _ (formattedText (buf ++ text)) Hl)
      as [-> ->].
    rewrite map_size_insert_Some by (eexists; exact Hp).
    split; [exact B|]. split; [easy|]. exact O.
  - destruct (userMessages injected (chatHistory st) =? 1) eqn:E1;
      cbn [andb].
    + destruct (throws (userProfile st)); [apply F|].
      apply Nat.eqb_eq in E1.
      pose proof (userEntries_le (chatHistory st)) as Hle.
      assert (H1 : userEntries (chatHistory st) = 1) by lia.
      specialize (O H1).
      cbn [pending chatHistory setPending setChatHistory setFormState].
      destruct (blocks_blockOf (chatHistory st) (userProfile st)) as [Hb ->].
      rewrite map_size_delete_Some by (eexists; exact Hp).
      split; [lia|]. split; [easy|]. intros _. lia.
    + cbn [pending chatHistory setPending setChatHistory setFormState].
      rewrite app_nil_r. split; [exact B|]. split; [easy|].
      intros H1. specialize (O H1).
      rewrite map_size_delete_Some by (eexists; exact Hp). lia.
Qed.

Lemma orderly_step (st : Page) (ev : Event) :
  orderly st -> orderly (step API_KEY NumberToString injected st ev).
Proof.
  intros H. destruct ev as [profile|value| |text|name|text| | |el signal];
    cbn [step].
  - destruct profile as [[|c p]|]; try exact H.
    apply orderly_sendMessage. unfold initializeChat.
    destruct (configured API_KEY); [exact H|].
    apply orderly_addMessage. exact H.
  - exact H.
  - now apply orderly_sendMessage.
  - destruct (isPromptButton text (chatHistory st)); [|exact H].
    apply orderly_sendMessage. exact H.
  - exact H.
  - unfold addTransactionAnalysisMessage.
    destruct (0 <? _); apply orderly_addMessage; exact H.
  - apply (orderly_addMessage
             (js "Sorry, there was an error reading your file.") st) in H.
    exact H.
  - exact H.
  - now apply orderly_resume.
Qed.

Lemma orderly_reachable (evs : list Event) :
  orderly (run API_KEY NumberToString injected initialPage evs).
Proof.
  assert (H : orderly initialPage).
  { split; [|cbn; auto with lia].
    intros el ph H. cbn in H. now rewrite lookup_empty in H. }
  revert H. generalize initialPage.
  induction evs as [|ev evs IH]; intros st H; [exact H|].
  apply IH. now apply orderly_step.
Qed.

(** *** Where a block can come from *)

Lemma blocks_setInnerHTML (el : nat) (html : jsstring) (st : Page) :
  blocks (chatHistory (setInnerHTML el html st)) = blocks (chatHistory st).
Proof.
  unfold setInnerHTML.
  destruct (chatHistory st !! el) as [[sender old|ps]|] eqn:H;
    try reflexivity.
  cbn [chatHistory setChatHistory]. unfold blocks.
  now rewrite (filter_insert_same _ _ _ _ _ H).
Qed.

Lemma blocks_sendMessage (text : jsstring) (st : Page) :
  blocks (chatHistory (sendMessage NumberToString text st))
  = blocks (chatHistory st).
Proof.
  destruct (truthy (trim text)) eqn:Ht;
    [|now rewrite (sendMessage_blank _ _ Ht)].
  destruct (chat st) as [c|] eqn:Hc.
  - rewrite (sendMessage_session _ _ _ Ht Hc). apply blocks_snoc2.
  - rewrite (sendMessage_no_session _ _ Ht Hc). apply blocks_snoc2.
Qed.

(** Only the normal end of a stream, with one user message in the log,
    changes the number of blocks. *)
Lemma blocks_step (st : Page) (ev : Event) :
  blocks (chatHistory (step API_KEY NumberToString injected st ev))
  <> blocks (chatHistory st) ->
  exists el buf, ev = Stream el Ended
                 /\ pending st !! el = Some (Receiving buf)
                 /\ userMessages injected (chatHistory st) = 1.
Proof.
  destruct ev as [profile|value| |text|name|text| | |el signal]; cbn [step];
    intros H.
  - destruct profile as [[|c p]|]; try (now contradiction H).
    rewrite blocks_sendMessage in H. unfold initializeChat in H.
    destruct (configured API_KEY); [now contradiction H|].
    cbn [addMessage fst chatHistory setChatHistory setUserProfile] in H.
    destruct (counts_snoc_model (chatHistory st) configurationMessage)
      as [_ E].
    now rewrite E in H.
  - now contradiction H.
  - now rewrite blocks_sendMessage in H.
  - destruct (isPromptButton text (chatHistory st));
      [|now contradiction H].
    now rewrite blocks_sendMessage in H.
  - now contradiction H.
  - unfold addTransactionAnalysisMessage in H.
    destruct (0 <? _);
      cbn [addMessage fst chatHistory setChatHistory setUpload] in H;
      match type of H with
      | blocks (_ ++ [Message model ?x]) <> _ =>
          destruct (counts_snoc_model (chatHistory st) x) as [_ E]
      end; now rewrite E in H.
  - cbn [addMessage fst chatHistory setChatHistory resetFileInput
         setUpload] in H.
    match type of H with
    | blocks (_ ++ [Message model ?x]) <> _ =>
        destruct (counts_snoc_model (chatHistory st) x) as [_ E]
    end. now rewrite E in H.
  - now contradiction H.
  - destruct (pending st !! el) as [[|buf]|] eqn:Hp;
      [| |now rewrite resume_idle in H];
      destruct signal as [| |text| |];
      try (rewrite (resume_Ended _ _ _ Hp) in H; cbv zeta in H);
      try (unfold resume in H; rewrite Hp in H);
      unfold finallyBlock, catchBlock in H;
      cbn [chatHistory setPending setFormState] in H;
      rewrite ?blocks_setInnerHTML in H;
      cbn [chatHistory setPending setFormState] in H;
      try (now contradiction H).
    exists el, buf. split; [reflexivity|]. split; [exact Hp|].
    destruct (userMessages injected (chatHistory st) =? 1) eqn:E;
      [now apply Nat.eqb_eq in E|].
    cbn [andb chatHistory setPending setFormState setChatHistory] in H.
    rewrite app_nil_r in H. now contradiction H.
Qed.

(** ** C5 and C9: the suggested prompts *)

Lemma filter_user_blockOf (profile : option jsstring) :
  List.filter isUserMessage (blockOf profile) = [].
Proof.
  unfold blockOf. now destruct (promptsFor profile) as [[|q qs]|len].
Qed.

(** Whatever the stream of a send did, the send added one user message. *)
Lemma answered_users (profile : option jsstring) (h : list Entry)
    (text : jsstring) (o : Outcome) :
  List.filter isUserMessage (answered injected profile h text o)
  = List.filter isUserMessage h ++ [Message user text].
Proof.
  unfold answered. cbv zeta.
  destruct (completes o && _); [destruct (throws profile)|];
    rewrite !List.filter_app, ?filter_user_blockOf, ?app_nil_r;
    reflexivity.
Qed.

Lemma filter_block_blockOf (profile : option jsstring) :
  List.filter isBlock (blockOf profile) = blockOf profile.
Proof.
  unfold blockOf. now destruct (promptsFor profile) as [[|q qs]|len].
Qed.

Lemma throws_blockOf (profile : option jsstring) :
  throws profile = true -> blockOf profile = [].
Proof.
  unfold throws, blockOf.
  now destruct (promptsFor profile) as [[|q qs]|[[|n]|]].
Qed.

(** The blocks of the log when the stream of a send is over. *)
Lemma answered_blocks (profile : option jsstring) (h : list Entry)
    (text : jsstring) (o : Outcome) :
  List.filter isBlock (answered injected profile h text o)
  = List.filter isBlock h
    ++ (if completes o
           && (userMessages injected
                 (h ++ [Message user text; Message model (shown o)]) =? 1)
        then blockOf profile else []).
Proof.
  unfold answered. cbv zeta.
  destruct (completes o && _).
  - destruct (throws profile) eqn:Et.
    + rewrite (throws_blockOf _ Et), !List.filter_app. reflexivity.
    + rewrite !List.filter_app, filter_block_blockOf. cbn [List.filter isBlock].
      now rewrite app_nil_r.
  - rewrite !List.filter_app. reflexivity.
Qed.

(** C5, as the code has it.  A block is appended only when a stream ends
    normally while the log holds exactly one element matching
    [.message.user], and no reachable log holds more than one block.  In a
    conversation whose sends do not overlap, the blocks of the log are the
    block of the profile, if it has one, when there is a key, the stream of
    the greeting, the first user turn, completes normally, and neither the
    greeting nor its response makes a further element matching
    [.message.user]; otherwise the log holds no block, whatever the later
    turns do.  For a profile of the table the block holds the three prompts
    of the profile, and it comes right after the response to the
    greeting. *)
Theorem C5_block_after_first_turn_only (p : jsstring) (greeting : Outcome)
    (turns : list (jsstring * Outcome)) :
  p <> [] ->
  let log := chatHistory
               (conversation API_KEY NumberToString injected p greeting
                  turns) in
  let first := configured API_KEY && completes greeting
               && (injected (greetingOf p) + injected (shown greeting)
                   =? 0) in
  List.filter isBlock log = (if first then blockOf (Some p) else [])
  /\ (In p profileTags ->
      blockOf (Some p) = [SuggestedPrompts (suggestedPrompts p)]
      /\ length (suggestedPrompts p) = 3
      /\ (first = true ->
          take 3 log = [Message user (greetingOf p);
                        Message model (shown greeting);
                        SuggestedPrompts (suggestedPrompts p)]))
  /\ (forall evs,
        blocks (chatHistory
                  (run API_KEY NumberToString injected initialPage evs))
        <= 1)
  /\ (forall st ev,
        blocks (chatHistory (step API_KEY NumberToString injected st ev))
        <> blocks (chatHistory st) ->
        exists el, ev = Stream el Ended
                   /\ userMessages injected (chatHistory st) = 1).
Proof.
  intros Hne. cbv zeta. unfold conversation.
  destruct (greeting_over p greeting Hne) as [Hq Hl].
  set (st := stream API_KEY NumberToString injected greeting _) in *.
  destruct (turns_append turns st Hq) as [rest [E B]].
  { rewrite Hl. destruct (configured API_KEY); [|vm_compute; lia].
    unfold userEntries. rewrite answered_users, length_app. cbn. lia. }
  rewrite E, List.filter_app, B, app_nil_r, Hl.
  split; [|split; [|split]].
  - destruct (configured API_KEY); [|reflexivity].
    rewrite answered_blocks. cbn [andb app List.filter].
    now rewrite userMessages_greeting.
  - intros Hp. destruct (profileTags_known p Hp) as (_ & Ht & Hb & H3).
    split; [exact Hb|]. split; [exact H3|].
    destruct (configured API_KEY); [|discriminate].
    cbn [andb]. intros Hf. unfold answered. cbv zeta. cbn [app].
    rewrite userMessages_greeting, Hf, Ht, Hb. reflexivity.
  - intros evs. apply (orderly_reachable evs).
  - intros st0 ev H. destruct (blocks_step st0 ev H) as [el [_ [-> [_ Hu]]]].
    now exists el.
Qed.


(** ** C3: the flag during a send *)

(** A send that no other send overlaps: the controls are disabled from the
    call, through every chunk, to the end of the stream, and enabled after
    it, however the stream ends. *)
Lemma isolated_send_flag (text : jsstring) (st : Page) (c : Chat)
    (o : Outcome) (chunks : list jsstring) :
  truthy (trim text) = true -> chat st = Some c -> pending st = ∅ ->
  let st0 := sendMessage NumberToString text st in
  let el := length (chatHistory st) + 1 in
  disabled st0
  /\ disabled (run API_KEY NumberToString injected st0
                 (List.map (Stream el) (Opened :: List.map Chunk chunks)))
  /\ enabled (stream API_KEY NumberToString injected o st0).
Proof.
  intros Ht Hc Hp. cbv zeta.
  rewrite (send_stream_session text o st c Ht Hc Hp).
  rewrite (sendMessage_session _ _ _ Ht Hc).
  split; [|split]; [repeat split| |repeat split].
  cbn [List.map].
  change (Stream ?e Opened :: ?l) with ([Stream e Opened] ++ l).
  rewrite run_app. cbn [run fold_left step].
  erewrite resume_opened;
    [|apply lookup_insert_eq|cbn [chatHistory]; apply lookup_snoc2].
  fold (run API_KEY NumberToString injected).
  erewrite run_chunks by (cbn [chatHistory]; apply lookup_snoc2).
  repeat split.
Qed.

(** ** C4: no key *)

Lemma chat_setInnerHTML (el : nat) (html : jsstring) (st : Page) :
  chat (setInnerHTML el html st) = chat st.
Proof.
  unfold setInnerHTML.
  now destruct (chatHistory st !! el) as [[? ?|?]|].
Qed.

Lemma chat_resume (el : nat) (signal : Signal) (st : Page) :
  chat (resume injected el signal st) = chat st.
Proof.
  destruct (pending st !! el) as [ph|] eqn:Hp; [|now rewrite resume_idle].
  destruct ph as [|buf], signal;
    try (rewrite (resume_Ended _ _ _ Hp); cbv zeta; destruct (_ && _));
    try (unfold resume; rewrite Hp); unfold finallyBlock, catchBlock;
    cbn [chat setPending setFormState setChatHistory];
    rewrite ?chat_setInnerHTML; reflexivity.
Qed.

Lemma chat_sendMessage_none (text : jsstring) (st : Page) :
  chat st = None -> chat (sendMessage NumberToString text st) = None.
Proof.
  intros Hc. destruct (truthy (trim text)) eqn:Ht.
  - now rewrite (sendMessage_no_session _ _ Ht Hc).
  - now rewrite (sendMessage_blank _ _ Ht).
Qed.

Lemma chat_step_none (st : Page) (ev : Event) :
  configured API_KEY = false -> chat st = None ->
  chat (step API_KEY NumberToString injected st ev) = None.
Proof.
  intros Hk Hc.
  destruct ev as [profile|value| |text|name|text| | |el signal]; cbn [step];
    try exact Hc.
  - destruct profile as [[|a p]|]; try exact Hc.
    apply chat_sendMessage_none. unfold initializeChat. now rewrite Hk.
  - now apply chat_sendMessage_none.
  - destruct (isPromptButton _ _); [|exact Hc].
    now apply chat_sendMessage_none.
  - unfold addTransactionAnalysisMessage. now destruct (0 <? _).
  - now rewrite chat_resume.
Qed.

Lemma chat_run_none (evs : list Event) (st : Page) :
  configured API_KEY = false -> chat st = None ->
  chat (run API_KEY NumberToString injected st evs) = None.
Proof.
  intros Hk. revert st. induction evs as [|ev evs IH]; intros st Hc;
    [exact Hc|].
  apply IH. now apply chat_step_none.
Qed.

(** C4, as the code has it.  Without a key the check fails once, when the
    profile is chosen: one configuration message enters the log and no
    session is created, then or ever after.  A send without a session ends
    before any [await]: its placeholder shows the same failure message as a
    stream that throws, the controls are enabled, and no configuration
    message is added. *)
Theorem C4_no_key_generic_failure (p text : jsstring) (evs : list Event)
    (st : Page) :
  configured API_KEY = false -> p <> [] ->
  chat st = None -> truthy (trim text) = true ->
  (let st1 := step API_KEY NumberToString injected initialPage
                (ProfileButtonClick (Some p)) in
   chat st1 = None
   /\ chatHistory st1 = [Message model configurationMessage;
                         Message user (greetingOf p);
                         Message model failureMessage]
   /\ pending st1 = ∅)
  /\ chat (run API_KEY NumberToString injected initialPage evs) = None
  /\ (let st' := sendMessage NumberToString text st in
      chatHistory st'
      = chatHistory st ++ [Message user text; Message model failureMessage]
      /\ enabled st' /\ chat st' = None /\ pending st' = pending st).
Proof.
  intros Hk Hp Hc Ht. split; [|split].
  - cbv zeta. destruct p as [|a p]; [contradiction|]. cbn [step].
    unfold initializeChat. rewrite Hk.
    rewrite sendMessage_no_session;
      [|apply greeting_not_blank|reflexivity].
    repeat split.
  - now apply chat_run_none.
  - cbv zeta. rewrite (sendMessage_no_session _ _ Ht Hc). repeat split.
Qed.

(** ** C6: the prompt and the message shown *)

Lemma uintDigits_digits (u : Decimal.uint) :
  forallb isDigit (uintDigits u) = true.
Proof. induction u; cbn; auto. Qed.

Lemma decimal_nonempty (n : N) : decimal n <> [].
Proof.
  unfold decimal. destruct n as [|q]; [discriminate|]. cbn [N.to_uint].
  pose proof (DecimalPos.Unsigned.to_uint_nonnil q) as H.
  now destruct (Pos.to_uint q).
Qed.

Lemma padded_two (r : N) :
  (r < 100)%N ->
  exists d1 d2, padded 2 (decimal r) = [d1; d2]
                /\ isDigit d1 && isDigit d2 = true.
Proof.
  intros Hr.
  assert (H : forallb
                (fun k => match padded 2 (decimal (N.of_nat k)) with
                          | [d1; d2] => isDigit d1 && isDigit d2
                          | _ => false
                          end) (seq 0 100) = true) by (vm_compute; reflexivity).
  rewrite forallb_forall in H. specialize (H (N.to_nat r)).
  rewrite N2Nat.id in H.
  destruct (padded 2 (decimal r)) as [|d1 [|d2 [|d3 ds]]];
    try (discriminate H; apply in_seq; lia).
  exists d1, d2. split; [reflexivity|]. apply H, in_seq. lia.
Qed.

Lemma fixedDigits_two (n : Z) :
  exists whole d1 d2,
    fixedDigits n 2 = whole ++ [46%N; d1; d2]
    /\ whole <> [] /\ forallb isDigit (whole ++ [d1; d2]) = true.
Proof.
  unfold fixedDigits. change (10 ^ Z.of_nat 2)%Z with 100%Z.
  destruct (padded_two (Z.to_N (n mod 100))) as [d1 [d2 [E D]]].
  { pose proof (Z.mod_pos_bound n 100 eq_refl). lia. }
  rewrite E. exists (decimal (Z.to_N (n / 100))), d1, d2.
  split; [reflexivity|]. split; [apply decimal_nonempty|].
  rewrite forallb_app. unfold decimal at 1. rewrite uintDigits_digits.
  cbn [forallb andb]. now rewrite andb_true_r.
Qed.

Lemma toFixed_two (x : number) :
  small x = true -> twoDecimals (toFixed NumberToString x 2).
Proof.
  destruct x as [s|s| |s m e]; try discriminate; intros Hx; unfold toFixed.
  - destruct (fixedDigits_two 0) as [w [d1 [d2 [E [Hw Hd]]]]].
    exists [], w, d1, d2. rewrite E. auto.
  - cbn [small] in Hx. apply negb_true_iff in Hx. rewrite Hx.
    destruct (fixedDigits_two (scaled m e (10 ^ Z.of_nat 2)))
      as [w [d1 [d2 [E [Hw Hd]]]]].
    exists (if s then js "-" else []), w, d1, d2. rewrite E.
    repeat split; auto. now destruct s; [right|left].
Qed.

(** C6, as the code has it.  A send that is not blank appends the text as
    typed to the log, then the placeholder.  With a file attached and at
    least one record, the message passed to the session is the summary
    sentence with the count and the two totals printed by [toFixed(2)],
    a blank line, the instruction, and the text as typed between double
    quotes; otherwise it is the text as typed.  [toFixed(2)] prints a finite
    total below [10^21] with two decimals. *)
Theorem C6_prompt_and_display (text : jsstring) (st : Page) :
  truthy (trim text) = true ->
  let st' := sendMessage NumberToString text st in
  let ts := transactions st in
  (exists html,
     chatHistory st'
     = chatHistory st ++ [Message user text; Message model html])
  /\ (forall c, chat st = Some c ->
        chat st' = Some {| systemInstruction := systemInstruction c;
                           sent := sent c
                                   ++ [promptOf NumberToString st text] |})
  /\ (uploadedFile st <> None -> ts <> [] ->
      promptOf NumberToString st text
      = js "The user has uploaded a CSV with "
        ++ decimal (N.of_nat (length ts))
        ++ js " transactions. Total income: "
        ++ toFixed NumberToString (totalIncome ts) 2
        ++ js ", Total expenses: "
        ++ toFixed NumberToString (abs (totalExpenses ts)) 2
        ++ js "." ++ [newline; newline]
        ++ js "Please answer the user's question based on this data: "
        ++ dquote ++ text ++ dquote)
  /\ (uploadedFile st = None \/ ts = [] ->
      promptOf NumberToString st text = text)
  /\ (forall x, small x = true -> twoDecimals (toFixed NumberToString x 2)).
Proof.
  intros Ht. cbv zeta. split; [|split; [|split; [|split]]].
  - destruct (chat st) as [c|] eqn:Hc.
    + rewrite (sendMessage_session _ _ _ Ht Hc). now eexists.
    + rewrite (sendMessage_no_session _ _ Ht Hc). now eexists.
  - intros c Hc. now rewrite (sendMessage_session _ _ _ Ht Hc).
  - intros Hf Hn. unfold promptOf, summary.
    destruct (uploadedFile st) as [f|]; [|contradiction].
    destruct (transactions st) as [|t ts]; [contradiction|].
    rewrite bool_decide_eq_true_2 by (now eexists).
    cbn [length Nat.ltb Nat.leb andb]. now rewrite <- !app_assoc.
  - intros [Hf|Hn]; unfold promptOf.
    + rewrite Hf. rewrite bool_decide_eq_false_2; [reflexivity|].
      now intros [? ?].
    + rewrite Hn. cbn [length Nat.ltb Nat.leb]. now rewrite andb_false_r.
  - apply toFixed_two.
Qed.

End Lifecycle.

(** ** C10: the class of an amount *)

Section Viewer.

Variable API_KEY : option jsstring.
Variable NumberToString : number -> jsstring.
Variable injected : jsstring -> nat.
Variable toLocaleCurrency : number -> jsstring.

Lemma ge_zero_not_lt (x : number) :
  isNaN x = false -> ge x zero = negb (lt x zero).
Proof. destruct x as [s|s| |s m e]; try discriminate; now destruct s. Qed.

Lemma transactions_setInnerHTML (el : nat) (html : jsstring) (st : Page) :
  transactions (setInnerHTML el html st) = transactions st.
Proof.
  unfold setInnerHTML.
  now destruct (chatHistory st !! el) as [[? ?|?]|].
Qed.

Lemma transactions_sendMessage (text : jsstring) (st : Page) :
  transactions (sendMessage NumberToString text st) = transactions st.
Proof.
  destruct (truthy (trim text)) eqn:Ht;
    [|now rewrite (sendMessage_blank _ _ _ Ht)].
  destruct (chat st) as [c|] eqn:Hc.
  - now rewrite (sendMessage_session _ _ _ _ Ht Hc).
  - now rewrite (sendMessage_no_session _ _ _ Ht Hc).
Qed.

Lemma transactions_resume (el : nat) (signal : Signal) (st : Page) :
  transactions (resume injected el signal st) = transactions st.
Proof.
  destruct (pending st !! el) as [ph|] eqn:Hp;
    [|now rewrite (resume_idle injected)].
  destruct ph as [|buf], signal;
    try (rewrite (resume_Ended injected _ _ _ Hp); cbv zeta;
         destruct (_ && _));
    try (unfold resume; rewrite Hp); unfold finallyBlock, catchBlock;
    cbn [transactions setPending setFormState setChatHistory];
    rewrite ?transactions_setInnerHTML; reflexivity.
Qed.

(** The list the page holds is empty or made of valid records. *)
Lemma valid_step (st : Page) (ev : Event) :
  Forall valid (transactions st) ->
  Forall valid (transactions (step API_KEY NumberToString injected st ev)).
Proof.
  intros H. destruct ev as [profile|value| |text|name|text| | |el signal];
    cbn [step]; try exact H.
  - destruct profile as [[|c p]|]; try exact H.
    rewrite transactions_sendMessage. unfold initializeChat.
    now destruct (configured API_KEY).
  - now rewrite transactions_sendMessage.
  - destruct (isPromptButton _ _); [|exact H].
    now rewrite transactions_sendMessage.
  - unfold addTransactionAnalysisMessage.
    assert (V : Forall valid (parseCSV text))
      by (apply List.Forall_forall; apply parseCSV_valid).
    now destruct (0 <? _).
  - constructor.
  - constructor.
  - now rewrite transactions_resume.
Qed.

Lemma valid_reachable (evs : list Event) :
  Forall valid
    (transactions (run API_KEY NumberToString injected initialPage evs)).
Proof.
  assert (H : Forall valid (transactions initialPage)) by constructor.
  revert H. generalize initialPage.
  induction evs as [|ev evs IH]; intros st H; [exact H|].
  apply IH. now apply valid_step.
Qed.

(** C10.  On every page the listeners can reach, a record of the
    transaction list whose amount is zero, of either sign, gets the class
    ['amount-positive']; the class is ['amount-negative'] exactly for the
    amounts less than zero; and the table has one row per record, with that
    class. *)
Theorem C10_zero_is_positive (evs : list Event) (trx : Transaction) :
  let ts :=
    transactions (run API_KEY NumberToString injected initialPage evs) in
  In trx ts ->
  (isZero (amount trx) = true -> amountClass trx = js "amount-positive")
  /\ (amountClass trx = js "amount-negative" <-> lt (amount trx) zero = true)
  /\ (amountClass trx = js "amount-positive" <-> lt (amount trx) zero = false)
  /\ renderTransactionsTable toLocaleCurrency ts
     = List.map (fun t => TransactionRow (date t) (description t)
                            (amountClass t) (toLocaleCurrency (amount t)))
                ts.
Proof.
  cbv zeta. intros Hin.
  pose proof (valid_reachable evs) as V. rewrite List.Forall_forall in V.
  destruct (V trx Hin) as [_ [_ Hnan]].
  unfold amountClass. rewrite (ge_zero_not_lt _ Hnan).
  split; [|split; [|split]].
  - now destruct (amount trx) as [s|s| |s m e].
  - destruct (lt (amount trx) zero); cbn [negb]; split; try easy;
      intros H; vm_compute in H; discriminate H.
  - destruct (lt (amount trx) zero); cbn [negb]; split; try easy;
      intros H; vm_compute in H; discriminate H.
  - unfold renderTransactionsTable.
    now destruct (transactions _).
Qed.

End Viewer.

(** ** The claims at concrete inputs *)

(** C3 fails on the code.  After the events of [overlappingSends] the send
    started by the prompt button is still waiting for its stream, its
    placeholder still shows the loading indicator, and the three controls
    are enabled: the [finally] of the earlier send cleared the flag. *)
Theorem C3_flag_cleared_during_overlap :
  let st := run demoKey demoToString demoInjected initialPage
              overlappingSends in
  pending st = {[ 6 := Connecting ]}
  /\ chatHistory st !! 5 = Some (Message user (js "How do I build credit?"))
  /\ chatHistory st !! 6 = Some (Message model loadingIndicator)
  /\ enabled st.
Proof. vm_compute. repeat split; reflexivity. Qed.

(** C4, as stated, fails: without a key, the failure a later send shows is
    the very message a failed stream shows with a key, and the configuration
    message is in the log once, from the creation. *)
Lemma C4_same_message_as_failed_stream :
  let later := [ChatInputTyped (js "hello"); ChatFormSubmit] in
  let noKey := run None demoToString demoInjected initialPage
                 (ProfileButtonClick (Some (js "Student")) :: later) in
  let failedStream :=
    run demoKey demoToString demoInjected initialPage
      (ProfileButtonClick (Some (js "Student")) :: Stream 1 Rejected
       :: later ++ [Stream 3 Rejected]) in
  chatHistory noKey !! 4 = Some (Message model failureMessage)
  /\ chatHistory noKey !! 4 = chatHistory failedStream !! 3
  /\ List.filter (fun e => match e with
                           | Message _ html =>
                               str_eqb html configurationMessage
                           | SuggestedPrompts _ => false
                           end) (chatHistory noKey)
     = [Message model configurationMessage].
Proof. vm_compute. repeat split; reflexivity. Qed.

(** C5, as stated, fails: the greeting fails, the next turn completes
    normally, and the log holds no suggested-prompts block. *)
Lemma C5_no_block_after_failed_greeting :
  let log := chatHistory
               (conversation demoKey demoToString demoInjected (js "Student")
                  (Fails []) lateAnswer) in
  log = [Message user (js "Hi! My profile is: Student");
         Message model failureMessage;
         Message user (js "What is an IRA?");
         Message model (js "A retirement account.")]
  /\ List.filter isBlock log = [].
Proof. vm_compute. split; reflexivity. Qed.


(** C6, as stated, fails: with one record of infinite amount attached, the
    message passed to the session ends with a quote after the text, so it is
    not the text with a prefix, and its income reads [Infinity], which is not
    a number with two decimals. *)
Lemma C6_prompt_not_prefixed_text :
  let st := run demoKey demoToString demoInjected initialPage
              (attachInfinity ++ [ChatInputTyped question; ChatFormSubmit]) in
  let prompt :=
    js "The user has uploaded a CSV with 1 transactions. Total income: Infinity, Total expenses: 0.00."
    ++ [newline; newline]
    ++ js "Please answer the user's question based on this data: "
    ++ dquote ++ question ++ dquote in
  option_map sent (chat st) = Some [js "Hi! My profile is: Student"; prompt]
  /\ (forall pre, prompt <> pre ++ question)
  /\ ~ twoDecimals (js "Infinity").
Proof.
  cbv zeta. split; [vm_compute; reflexivity|]. split.
  - intros pre H. apply (f_equal (@rev _)) in H.
    rewrite (rev_app_distr pre question) in H. vm_compute in H.
    discriminate H.
  - intros [sign [whole [d1 [d2 [H _]]]]].
    apply (f_equal (@rev _)) in H. rewrite !rev_app_distr in H.
    vm_compute in H. discriminate H.
Qed.

(** *** Witnesses *)

(** C2 at a file of five integer amounts. *)
Lemma C2_witness :
  List.map amount (parseCSV integersCSV) = List.map ofInteger integers
  /\ (sumZ (List.map Z.abs integers) < 2 ^ 53)%Z
  /\ totalIncome (parseCSV integersCSV) = ofInteger 3700
  /\ abs (totalExpenses (parseCSV integersCSV)) = ofInteger 842.
Proof.
  assert (E : List.map amount (parseCSV integersCSV)
              = List.map ofInteger integers) by reflexivity.
  assert (B : (sumZ (List.map Z.abs integers) < 2 ^ 53)%Z) by reflexivity.
  split; [exact E|]. split; [exact B|].
  exact (proj1 (proj2 (proj2 (C2_summary_totals demoToString _)))
           integers E B).
Defined.

(** C4 at the fresh page without a key. *)
Lemma C4_witness :
  configured None = false /\ js "Student" <> []
  /\ chat initialPage = None /\ truthy (trim (js "hello")) = true
  /\ chat (run None demoToString demoInjected initialPage
             [ProfileButtonClick (Some (js "Student"));
              ChatInputTyped (js "hello"); ChatFormSubmit]) = None.
Proof.
  assert (H1 : configured None = false) by reflexivity.
  assert (H2 : js "Student" <> []) by discriminate.
  assert (H3 : chat initialPage = None) by reflexivity.
  assert (H4 : truthy (trim (js "hello")) = true) by reflexivity.
  repeat (split; [assumption|]).
  exact (proj1 (proj2 (C4_no_key_generic_failure None demoToString demoInjected
                         (js "Student") (js "hello")
                         [ProfileButtonClick (Some (js "Student"));
                          ChatInputTyped (js "hello"); ChatFormSubmit]
                         initialPage H1 H2 H3 H4))).
Defined.

(** C5 at a conversation of two turns. *)
Lemma C5_witness :
  js "Student" <> [] /\ In (js "Student") profileTags
  /\ List.filter isBlock
       (chatHistory
          (conversation demoKey demoToString demoInjected (js "Student")
             (Completes [js "Welcome"]) lateAnswer))
     = [SuggestedPrompts (suggestedPrompts (js "Student"))]
  /\ take 3 (chatHistory
               (conversation demoKey demoToString demoInjected
                  (js "Student") (Completes [js "Welcome"]) lateAnswer))
     = [Message user (js "Hi! My profile is: Student");
        Message model (js "Welcome");
        SuggestedPrompts (suggestedPrompts (js "Student"))].
Proof.
  assert (N : js "Student" <> []) by discriminate.
  assert (H : In (js "Student") profileTags) by (left; reflexivity).
  split; [exact N|]. split; [exact H|].
  pose proof (C5_block_after_first_turn_only demoKey demoToString
                demoInjected (js "Student") (Completes [js "Welcome"])
                lateAnswer N) as C.
  cbv zeta in C. destruct C as (C1 & C2 & _).
  split; [exact C1|].
  exact (proj2 (proj2 (C2 H)) eq_refl).
Defined.

(** C6 at the page with the file attached. *)
Lemma C6_witness :
  truthy (trim question) = true
  /\ forall x, small x = true -> twoDecimals (toFixed demoToString x 2).
Proof.
  assert (H : truthy (trim question) = true) by reflexivity.
  split; [exact H|].
  exact (proj2 (proj2 (proj2 (proj2
           (C6_prompt_and_display demoToString question
              (run demoKey demoToString demoInjected initialPage
                 attachInfinity) H))))).
Defined.




(** C10 at the salary of the example. *)
Lemma C10_witness :
  let salary := {| date := js "2024-01-01"; description := js "Salary";
                   amount := ofDecimal 2500 0 |} in
  In salary (transactions (run demoKey demoToString demoInjected initialPage
                             attachExample))
  /\ (amountClass salary = js "amount-positive"
      <-> lt (amount salary) zero = false).
Proof.
  cbv zeta.
  assert (H : In {| date := js "2024-01-01"; description := js "Salary";
                    amount := ofDecimal 2500 0 |}
                 (transactions
                    (run demoKey demoToString demoInjected initialPage
                       attachExample)))
    by (left; reflexivity).
  split; [exact H|].
  exact (proj1 (proj2 (proj2
           (C10_zero_is_positive demoKey demoToString demoInjected demoToString
              attachExample _ H)))).
Defined.

(** * Further properties of the code *)

(** ** [trim], [split] and the lines of a file *)

Lemma trimStart_blank (s : jsstring) : trimStart s = [] <-> blank s = true.
Proof.
  unfold blank. induction s as [|c s IH]; cbn [trimStart forallb];
    [easy|].
  destruct (isTrimmed c); cbn [andb]; [exact IH|easy].
Qed.

Lemma trimStart_head (s : jsstring) (c : code_unit) (t : jsstring) :
  trimStart s = c :: t -> isTrimmed c = false.
Proof.
  induction s as [|a s IH]; cbn [trimStart]; [discriminate|].
  destruct (isTrimmed a) eqn:Ha; [exact IH|]. now intros [= <- _].
Qed.

Lemma trim_blank (s : jsstring) : trim s = [] <-> blank s = true.
Proof.
  unfold trim, trimEnd. split.
  - intros H. apply trimStart_blank.
    destruct (trimStart s) as [|c t] eqn:E; [reflexivity|].
    apply trimStart_head in E.
    assert (H' : trimStart (rev (c :: t)) = []).
    { destruct (trimStart (rev (c :: t))) as [|x l]; [reflexivity|].
      cbn [rev] in H. now destruct (rev l). }
    exfalso. cbn [rev] in H'. now apply (trimStart_snoc (rev t) c E).
  - intros H. apply trimStart_blank in H. now rewrite H.
Qed.

Lemma truthy_trim_blank (s : jsstring) :
  truthy (trim s) = negb (blank s).
Proof.
  destruct (blank s) eqn:B.
  - apply trim_blank in B. now rewrite B.
  - destruct (trim s) as [|c t] eqn:E; [|reflexivity].
    apply trim_blank in E. congruence.
Qed.

Lemma trimStart_snoc_blank (s : jsstring) (c : code_unit) :
  isTrimmed c = true ->
  trimStart (s ++ [c])
  = match trimStart s with [] => [] | t => t ++ [c] end.
Proof.
  intros Hc. induction s as [|a s IH]; cbn [app trimStart].
  - now rewrite Hc.
  - destruct (isTrimmed a); [exact IH|reflexivity].
Qed.

Lemma trim_snoc (s : jsstring) (c : code_unit) :
  isTrimmed c = true -> trim (s ++ [c]) = trim s.
Proof.
  intros Hc. unfold trim, trimEnd. rewrite (trimStart_snoc_blank s c Hc).
  destruct (trimStart s) as [|a t]; [reflexivity|].
  rewrite rev_app_distr. cbn [rev app trimStart]. now rewrite Hc.
Qed.

Lemma split_nonempty (sep : code_unit) (s : jsstring) : split sep s <> [].
Proof.
  induction s as [|c s IH]; cbn [split]; [discriminate|].
  destruct (code_unit_eqb c sep); [discriminate|].
  now destruct (split sep s).
Qed.

Lemma split_app (sep : code_unit) (a b : jsstring) :
  split sep (a ++ sep :: b) = split sep a ++ split sep b.
Proof.
  induction a as [|c a IH]; cbn [app split].
  - unfold code_unit_eqb. now rewrite N.eqb_refl.
  - destruct (code_unit_eqb c sep); [now rewrite IH|].
    rewrite IH. pose proof (split_nonempty sep a) as H.
    now destruct (split sep a).
Qed.

Lemma split_single (sep : code_unit) (a : jsstring) :
  forallb (fun c => negb (code_unit_eqb c sep)) a = true ->
  split sep a = [a].
Proof.
  induction a as [|c a IH]; cbn [forallb split]; [reflexivity|].
  intros [Hc Ha]%andb_true_iff. apply negb_true_iff in Hc.
  now rewrite Hc, (IH Ha).
Qed.

Lemma split_snoc (sep c : code_unit) (s : jsstring) :
  code_unit_eqb c sep = false ->
  exists ps q, split sep s = ps ++ [q]
               /\ split sep (s ++ [c]) = ps ++ [q ++ [c]].
Proof.
  intros Hc. induction s as [|a s [ps [q [E1 E2]]]]; cbn [app split].
  - rewrite Hc. now exists [], [].
  - rewrite E1, E2. destruct (code_unit_eqb a sep).
    + now exists ([] :: ps), q.
    + destruct ps as [|x ps]; cbn [app].
      * now exists [], (a :: q).
      * now exists ((a :: x) :: ps), q.
Qed.

Lemma parts_snoc (c : code_unit) (line : jsstring) :
  isTrimmed c = true ->
  length (split comma (line ++ [c])) = length (split comma line)
  /\ forall i, trim (nth i (split comma (line ++ [c])) [])
               = trim (nth i (split comma line) []).
Proof.
  intros Hc.
  assert (Hne : code_unit_eqb c comma = false).
  { unfold code_unit_eqb. destruct (N.eqb_spec c comma) as [->|]; [|easy].
    discriminate Hc. }
  destruct (split_snoc comma c line Hne) as [ps [q [-> ->]]].
  split; [now rewrite !length_app|]. intros i.
  destruct (Nat.lt_trichotomy i (length ps)) as [H|[->|H]].
  - now rewrite !app_nth1.
  - rewrite !nth_middle. now apply trim_snoc.
  - rewrite !nth_overflow; [reflexivity| |]; rewrite length_app;
      cbn [length]; lia.
Qed.

(** A line and the same line followed by a carriage return, or by any other
    character that [trim] removes, give the same record or are both
    dropped. *)
Lemma parseLine_snoc (acc : list Transaction) (line : jsstring)
    (c : code_unit) :
  isTrimmed c = true -> parseLine acc (line ++ [c]) = parseLine acc line.
Proof.
  intros Hc. unfold parseLine.
  destruct (parts_snoc c line Hc) as [-> H].
  now rewrite (trim_snoc line c Hc), !H.
Qed.

(** ** [parseCSV] on whole files *)

Lemma parseCSV_body (h body : jsstring) :
  oneLine h = true ->
  parseCSV (h ++ newline :: body)
  = fold_left parseLine (split newline body) [].
Proof.
  intros Hh. unfold parseCSV. now rewrite split_app, (split_single _ _ Hh).
Qed.

(** X1.  A file of one line, or the empty file, gives no record: the only
    line is taken for the header, even when it reads as a record. *)
Theorem parseCSV_single_line (s : jsstring) :
  oneLine s = true -> parseCSV s = [].
Proof.
  intros Hs. unfold parseCSV. now rewrite (split_single _ _ Hs).
Qed.

Lemma parseCSV_single_line_witness :
  oneLine (js "2024-01-01,Salary,2500") = true
  /\ parseCSV (js "2024-01-01,Salary,2500") = [].
Proof.
  assert (H : oneLine (js "2024-01-01,Salary,2500") = true) by reflexivity.
  split; [exact H|]. exact (parseCSV_single_line _ H).
Defined.

(** X2.  The first line is dropped whatever it holds: two files that differ
    in their first line only give the same records. *)
Theorem parseCSV_header_ignored (h1 h2 body : jsstring) :
  oneLine h1 = true -> oneLine h2 = true ->
  parseCSV (h1 ++ newline :: body) = parseCSV (h2 ++ newline :: body).
Proof.
  intros H1 H2. now rewrite !parseCSV_body.
Qed.

Lemma parseCSV_header_ignored_witness :
  oneLine (js "Date,Description,Amount") = true
  /\ oneLine (js "2024-01-01,Salary,2500") = true
  /\ parseCSV (js "Date,Description,Amount" ++ newline :: js "a,b,1")
     = parseCSV (js "2024-01-01,Salary,2500" ++ newline :: js "a,b,1").
Proof.
  assert (H1 : oneLine (js "Date,Description,Amount") = true)
    by reflexivity.
  assert (H2 : oneLine (js "2024-01-01,Salary,2500") = true) by reflexivity.
  split; [exact H1|]. split; [exact H2|].
  exact (parseCSV_header_ignored _ _ (js "a,b,1") H1 H2).
Defined.

(** X3.  Each line is read on its own: the records of a file are the
    records of its first part followed by the records of the rest, under
    the same header. *)
Theorem parseCSV_concatenates (h body1 body2 : jsstring) :
  oneLine h = true ->
  parseCSV (h ++ newline :: body1 ++ newline :: body2)
  = parseCSV (h ++ newline :: body1) ++ parseCSV (h ++ newline :: body2).
Proof.
  intros Hh. rewrite !parseCSV_body by exact Hh.
  rewrite split_app, !fold_parseLine. cbn [app].
  now rewrite List.filter_app, List.map_app.
Qed.

Lemma parseCSV_concatenates_witness :
  oneLine (js "Date,Description,Amount") = true
  /\ length (parseCSV (js "Date,Description,Amount" ++ newline
                       :: js "a,b,1" ++ newline :: js "c,d,2")) = 2.
Proof.
  assert (H : oneLine (js "Date,Description,Amount") = true) by reflexivity.
  split; [exact H|].
  rewrite (parseCSV_concatenates _ (js "a,b,1") (js "c,d,2") H).
  reflexivity.
Defined.

Lemma fold_parseLine_eol (c : code_unit) (ls : list jsstring)
    (acc : list Transaction) :
  isTrimmed c = true ->
  fold_left parseLine (List.map (fun l => l ++ [c]) ls) acc
  = fold_left parseLine ls acc.
Proof.
  intros Hc. revert acc. induction ls as [|l ls IH]; intros acc;
    [reflexivity|].
  cbn [List.map fold_left]. now rewrite (parseLine_snoc _ _ _ Hc), IH.
Qed.

Lemma split_joinLines (pre : jsstring) (l : jsstring) (ls : list jsstring) :
  oneLine pre = true -> oneLine l = true -> forallb oneLine ls = true ->
  split newline (joinLines (pre ++ [newline]) (l :: ls))
  = List.map (fun x => x ++ pre) (List.removelast (l :: ls))
    ++ [List.last (l :: ls) []].
Proof.
  intros Hpre. revert l. induction ls as [|l' ls IH]; intros l Hl Hls.
  - cbn [joinLines List.removelast List.last List.map app]. now apply split_single.
  - cbn [forallb] in Hls. apply andb_true_iff in Hls as [Hl' Hls].
    change (joinLines (pre ++ [newline]) (l :: l' :: ls))
      with (l ++ (pre ++ [newline])
            ++ joinLines (pre ++ [newline]) (l' :: ls)).
    rewrite <- app_assoc. cbn [app]. rewrite app_assoc, split_app.
    rewrite (IH l' Hl' Hls), split_single.
    + reflexivity.
    + unfold oneLine in *. now rewrite forallb_app, Hl, Hpre.
Qed.

(** X4.  A file written with carriage return and line feed between its
    lines gives the same records as the file written with line feeds. *)
Theorem parseCSV_crlf (ls : list jsstring) :
  forallb oneLine ls = true ->
  parseCSV (joinLines [carriageReturn; newline] ls)
  = parseCSV (joinLines [newline] ls).
Proof.
  intros H. destruct ls as [|l ls]; [reflexivity|].
  cbn [forallb] in H. apply andb_true_iff in H as [Hl Hls].
  unfold parseCSV.
  change (joinLines [carriageReturn; newline])
    with (joinLines ([carriageReturn] ++ [newline])).
  change (joinLines [newline]) with (joinLines ([] ++ [newline])).
  rewrite (split_joinLines [carriageReturn] l ls eq_refl Hl Hls).
  rewrite (split_joinLines [] l ls eq_refl Hl Hls).
  destruct ls as [|l' ls]; [reflexivity|].
  change (List.removelast (l :: l' :: ls))
    with (l :: List.removelast (l' :: ls)).
  generalize (List.last (l :: l' :: ls) []).
  generalize (List.removelast (l' :: ls)). intros xs z.
  cbn [List.map app]. unfold slice1. cbn [skipn]. rewrite !drop_0.
  rewrite !fold_left_app, fold_parseLine_eol by reflexivity.
  rewrite (List.map_ext (fun x : jsstring => x ++ []) id)
    by (intros; apply app_nil_r).
  now rewrite List.map_id.
Qed.

Lemma parseCSV_crlf_witness :
  forallb oneLine [js "Date,Description,Amount"; js "a,b,1"; js "c,d,-2"]
  = true
  /\ length (parseCSV (joinLines [carriageReturn; newline]
                         [js "Date,Description,Amount"; js "a,b,1";
                          js "c,d,-2"])) = 2.
Proof.
  assert (H : forallb oneLine [js "Date,Description,Amount"; js "a,b,1";
                               js "c,d,-2"] = true) by reflexivity.
  split; [exact H|]. rewrite (parseCSV_crlf _ H). reflexivity.
Defined.

(** ** Rounding never gives NaN *)

Lemma shr_1_nonneg (mrs : shr_record) :
  (0 <= shr_m mrs)%Z -> (0 <= shr_m (shr_1 mrs))%Z.
Proof.
  destruct mrs as [m r s]. destruct m as [|q|q]; cbn; try lia;
    destruct q; cbn; lia.
Qed.

Lemma iter_shr_1_nonneg (q : positive) (mrs : shr_record) :
  (0 <= shr_m mrs)%Z -> (0 <= shr_m (SpecFloat.iter_pos shr_1 q mrs))%Z.
Proof.
  revert mrs. induction q as [q IH|q IH|]; intros mrs H; cbn [SpecFloat.iter_pos];
    auto using shr_1_nonneg.
Qed.

Lemma shr_fexp_nonneg (m e : Z) (l : location) :
  (0 <= m)%Z -> (0 <= shr_m (fst (shr_fexp prec emax m e l)))%Z.
Proof.
  intros H. unfold shr_fexp, shr.
  assert (H0 : (0 <= shr_m (shr_record_of_loc m l))%Z)
    by (destruct l as [|[| |]]; exact H).
  destruct (fexp prec emax (Zdigits2 m + e) - e)%Z; cbn [fst];
    auto using iter_shr_1_nonneg.
Qed.

Lemma round_nearest_even_nonneg (m : Z) (l : location) :
  (0 <= m)%Z -> (0 <= round_nearest_even m l)%Z.
Proof.
  intros H. destruct l as [|[| |]]; cbn; try lia.
  destruct (Z.even m); lia.
Qed.

(** The result of a rounding has the sign asked for, and is not NaN. *)
Lemma binary_round_aux_sign (sx : bool) (mx ex : Z) (lx : location) :
  (0 <= mx)%Z ->
  (if sx then notPositive else notNegative)
    (binary_round_aux prec emax sx mx ex lx) = true.
Proof.
  intros H. unfold binary_round_aux.
  pose proof (shr_fexp_nonneg mx ex lx H) as H1.
  destruct (shr_fexp prec emax mx ex lx) as [mrs' e'].
  cbn [fst] in H1.
  pose proof (shr_fexp_nonneg _ e' loc_Exact
                (round_nearest_even_nonneg _ (loc_of_shr_record mrs') H1))
    as H2.
  destruct (shr_fexp prec emax _ e' loc_Exact) as [mrs'' e''].
  cbn [fst] in H2.
  destruct (shr_m mrs'') as [|q|q]; [now destruct sx| |lia].
  destruct (e'' <=? emax - prec)%Z; now destruct sx.
Qed.

Lemma binary_normalize_sign (m e : Z) :
  (if (m <? 0)%Z then notPositive else notNegative)
    (binary_normalize prec emax m e false) = true.
Proof.
  destruct m as [|q|q]; cbn [binary_normalize Z.ltb Z.compare];
    [reflexivity| |];
    unfold binary_round;
    destruct (shl_align _ _ _) as [mz ez];
    [apply (binary_round_aux_sign false)|apply (binary_round_aux_sign true)];
    lia.
Qed.

Lemma ofDecimal_notNegative (d e10 : Z) :
  (0 <= d)%Z -> notNegative (ofDecimal d e10) = true.
Proof.
  intros Hd. unfold ofDecimal.
  destruct (d =? 0)%Z; [reflexivity|].
  destruct (0 <=? e10)%Z eqn:He.
  - pose proof (binary_normalize_sign (d * 10 ^ e10) 0) as H.
    assert (Hm : (d * 10 ^ e10 <? 0)%Z = false).
    { apply Z.ltb_ge. apply Z.mul_nonneg_nonneg; [exact Hd|].
      apply Z.pow_nonneg. lia. }
    now rewrite Hm in H.
  - unfold SFdiv_core_binary.
    set (m' := match _ with Z0 => d | Zpos _ => _ | Zneg _ => 0%Z end).
    assert (Hm : (0 <= m')%Z).
    { subst m'. destruct (_ - _ - _)%Z; try lia.
      rewrite Z.shiftl_mul_pow2 by lia.
      apply Z.mul_nonneg_nonneg; [exact Hd|]. apply Z.pow_nonneg. lia. }
    destruct (Z.div_eucl m' (10 ^ (- e10))) as [q r] eqn:E.
    assert (Hq : q = (m' / 10 ^ (- e10))%Z) by (unfold Z.div; now rewrite E).
    apply (binary_round_aux_sign false). subst q.
    apply Z.div_pos; [exact Hm|]. apply Z.pow_pos_nonneg; lia.
Qed.

Lemma notNegative_not_NaN (x : number) :
  notNegative x = true -> isNaN x = false /\ lt x zero = false.
Proof. destruct x as [s|s| |s m e]; try discriminate; now destruct s. Qed.

(** ** Sums of amounts of one sign *)

Lemma add_notNegative (x y : number) :
  notNegative x = true -> gt y zero = true -> notNegative (add x y) = true.
Proof.
  destruct x as [sx|sx| |sx mx ex], y as [sy|sy| |sy my ey];
    try discriminate; try (destruct sx, sy; discriminate);
    try (destruct sx, sy; intros; reflexivity || discriminate).
  destruct sx, sy; try discriminate. intros _ _.
  unfold add, SFadd. cbn [cond_Zopp].
  pose proof (binary_normalize_sign
                (Z.pos (fst (shl_align mx ex (Z.min ex ey)))
                 + Z.pos (fst (shl_align my ey (Z.min ex ey))))
                (Z.min ex ey)) as H.
  now destruct (_ <? 0)%Z eqn:E; [apply Z.ltb_lt in E; lia|].
Qed.

Lemma add_notPositive (x y : number) :
  notPositive x = true -> lt y zero = true -> notPositive (add x y) = true.
Proof.
  destruct x as [sx|sx| |sx mx ex], y as [sy|sy| |sy my ey];
    try discriminate; try (destruct sx, sy; discriminate);
    try (destruct sx, sy; intros; reflexivity || discriminate).
  destruct sx, sy; try discriminate. intros _ _.
  unfold add, SFadd. cbn [cond_Zopp].
  pose proof (binary_normalize_sign
                (- Z.pos (fst (shl_align mx ex (Z.min ex ey)))
                 + - Z.pos (fst (shl_align my ey (Z.min ex ey))))
                (Z.min ex ey)) as H.
  now destruct (_ <? 0)%Z eqn:E; [|apply Z.ltb_ge in E; lia].
Qed.

Lemma fold_add_notNegative (ts : list Transaction) (sum : number) :
  notNegative sum = true ->
  notNegative
    (fold_left (fun sum t => add sum (amount t))
       (List.filter (fun t => gt (amount t) zero) ts) sum) = true.
Proof.
  revert sum. induction ts as [|t ts IH]; intros sum H; [exact H|].
  cbn [List.filter]. destruct (gt (amount t) zero) eqn:E; [|now apply IH].
  cbn [fold_left]. apply IH. now apply add_notNegative.
Qed.

Lemma fold_add_notPositive (ts : list Transaction) (sum : number) :
  notPositive sum = true ->
  notPositive
    (fold_left (fun sum t => add sum (amount t))
       (List.filter (fun t => lt (amount t) zero) ts) sum) = true.
Proof.
  revert sum. induction ts as [|t ts IH]; intros sum H; [exact H|].
  cbn [List.filter]. destruct (lt (amount t) zero) eqn:E; [|now apply IH].
  cbn [fold_left]. apply IH. now apply add_notPositive.
Qed.

(** X5.  Whatever the records, even with amounts that are NaN or infinite,
    the income and the expenses that the prompt embeds are never NaN and
    never below zero. *)
Theorem totals_never_negative (ts : list Transaction) :
  isNaN (totalIncome ts) = false
  /\ lt (totalIncome ts) zero = false
  /\ isNaN (abs (totalExpenses ts)) = false
  /\ lt (abs (totalExpenses ts)) zero = false.
Proof.
  pose proof (fold_add_notNegative ts zero eq_refl) as Hi.
  pose proof (fold_add_notPositive ts zero eq_refl) as He.
  fold (totalIncome ts) in Hi. fold (totalExpenses ts) in He.
  destruct (notNegative_not_NaN _ Hi) as [H1 H2].
  repeat split; try assumption;
    destruct (totalExpenses ts) as [s|s| |s m e]; try discriminate;
    reflexivity.
Qed.

(** ** The amount of a row *)

Lemma takeDigits_digits (s : jsstring) :
  forallb isDigit (fst (takeDigits s)) = true.
Proof.
  induction s as [|c s IH]; cbn [takeDigits]; [reflexivity|].
  destruct (isDigit c) eqn:Hc; [|reflexivity].
  destruct (takeDigits s) as [ds rest]. cbn [fst forallb] in *.
  now rewrite Hc, IH.
Qed.

Lemma digitsValue_nonneg (ds : jsstring) :
  forallb isDigit ds = true -> (0 <= digitsValue ds)%Z.
Proof.
  unfold digitsValue. intros H.
  assert (G : forall acc, (0 <= acc)%Z ->
              (0 <= fold_left (fun acc c => acc * 10 + digitValue c)
                      ds acc)%Z); [|apply G; lia].
  induction ds as [|c ds IH]; intros acc Hacc; [exact Hacc|].
  cbn [forallb] in H. apply andb_true_iff in H as [Hc Hds].
  cbn [fold_left]. apply (IH Hds).
  unfold isDigit in Hc. apply andb_true_iff in Hc as [Hc _].
  apply N.leb_le in Hc. unfold digitValue. lia.
Qed.

Lemma literal_notNegative (s : jsstring) (x : number) :
  unsignedDecimalLiteral s = Some x -> notNegative x = true.
Proof.
  unfold unsignedDecimalLiteral.
  destruct (startsWith (js "Infinity") s); [now intros [= <-]|].
  pose proof (takeDigits_digits s) as Hip.
  destruct (takeDigits s) as [ip r1]. cbn [fst] in Hip.
  assert (Hfp : forall fp r2,
            (fp, r2) = match r1 with
                       | c :: r => if N.eqb c 46%N then takeDigits r
                                   else ([], r1)
                       | [] => ([], r1)
                       end -> forallb isDigit fp = true).
  { intros fp r2. destruct r1 as [|c r]; [now intros [= -> _]|].
    destruct (N.eqb c 46%N); [|now intros [= -> _]].
    pose proof (takeDigits_digits r) as H.
    destruct (takeDigits r) as [a b]. now intros [= -> _]. }
  destruct (match r1 with [] => _ | _ => _ end) as [fp r2].
  specialize (Hfp fp r2 eq_refl).
  destruct (ip ++ fp) as [|d ds] eqn:E; [discriminate|].
  intros [= <-]. apply ofDecimal_notNegative, digitsValue_nonneg.
  now rewrite <- E, forallb_app, Hip, Hfp.
Qed.

Lemma digit_codes (c : code_unit) :
  isDigit c = true ->
  isTrimmed c = false /\ N.eqb c 45%N = false /\ N.eqb c 43%N = false
  /\ code_unit_eqb 73%N c = false.
Proof.
  unfold isDigit. intros [H1 H2]%andb_true_iff.
  apply N.leb_le in H1, H2.
  unfold isTrimmed, isWhiteSpace, isLineTerminator, code_unit_eqb.
  repeat match goal with
         | |- context [N.eqb ?a ?b] =>
             replace (N.eqb a b) with false
               by (symmetry; apply N.eqb_neq; lia)
         end.
  replace (N.leb 8192 c) with false by (symmetry; apply N.leb_gt; lia).
  easy.
Qed.

(** A text that starts with a digit is read as a number, whatever follows
    the digits. *)
Lemma parseFloat_digit (c : code_unit) (rest : jsstring) :
  isDigit c = true -> isNaN (parseFloat (c :: rest)) = false.
Proof.
  intros Hc. destruct (digit_codes c Hc) as [Ht [Hm [Hp Hi]]].
  unfold parseFloat. cbn [trimStart]. rewrite Ht, Hm, Hp.
  destruct (unsignedDecimalLiteral (c :: rest)) as [x|] eqn:E.
  - apply literal_notNegative in E. now destruct x.
  - exfalso. unfold unsignedDecimalLiteral in E.
    change (js "Infinity") with (73%N :: js "nfinity") in E.
    cbn [startsWith] in E. rewrite Hi in E. cbn [andb] in E.
    cbn [takeDigits] in E. rewrite Hc in E.
    destruct (takeDigits rest) as [ds r1].
    destruct (match r1 with [] => _ | _ => _ end) as [fp r2].
    discriminate E.
Qed.

Lemma split_three (d e a : jsstring) :
  noComma d = true -> noComma e = true ->
  split comma (d ++ comma :: e ++ comma :: a) = d :: e :: split comma a.
Proof.
  intros Hd He. now rewrite !split_app, (split_single _ _ Hd),
                   (split_single _ _ He).
Qed.

(** X6.  A row is kept whenever its date and its description are not blank
    and its third field starts, after white space, with a digit: what
    follows the digits in that field, and any further field, is ignored. *)
Theorem parseLine_keeps_leading_digits (acc : list Transaction)
    (d e a more : jsstring) (c : code_unit) (rest : jsstring) :
  noComma d = true -> noComma e = true -> noComma a = true ->
  blank d = false -> blank e = false ->
  trim a = c :: rest -> isDigit c = true ->
  let record := {| date := trim d; description := trim e;
                   amount := parseFloat (c :: rest) |} in
  isNaN (amount record) = false
  /\ parseLine acc (d ++ comma :: e ++ comma :: a) = acc ++ [record]
  /\ parseLine acc (d ++ comma :: e ++ comma :: a ++ comma :: more)
     = acc ++ [record].
Proof.
  intros Hd He Ha Bd Be Et Hc. cbv zeta. cbn [amount].
  pose proof (parseFloat_digit c rest Hc) as Hn.
  split; [exact Hn|].
  assert (H : forall (parts : list jsstring) (line : jsstring),
            3 <= length parts ->
            nth 0 parts [] = d -> nth 1 parts [] = e -> nth 2 parts [] = a ->
            trim line <> [] -> split comma line = parts ->
            parseLine acc line
            = acc ++ [{| date := trim d; description := trim e;
                         amount := parseFloat (c :: rest) |}]).
  { intros parts line Hlen H0 H1 H2 Hline Hsplit. unfold parseLine.
    rewrite Hsplit.
    destruct (trim line) as [|x l] eqn:El; [contradiction|].
    cbn [str_eqb]. apply Nat.leb_le in Hlen. rewrite Hlen, H0, H1, H2.
    rewrite !truthy_trim_blank, Bd, Be, Et, Hn. reflexivity. }
  assert (Hline : forall tail, trim (d ++ tail) <> []).
  { intros tail Hb. apply trim_blank in Hb. unfold blank in *.
    rewrite forallb_app in Hb. apply andb_true_iff in Hb as [Hb _].
    congruence. }
  split.
  - apply (H [d; e; a]); try reflexivity.
    + apply Hline.
    + now rewrite (split_three d e a Hd He), (split_single _ _ Ha).
  - apply (H (d :: e :: a :: split comma more)); try reflexivity.
    + cbn [length]. lia.
    + apply Hline.
    + now rewrite (split_three d e _ Hd He), split_app,
        (split_single _ _ Ha).
Qed.

Lemma parseLine_keeps_leading_digits_witness :
  noComma (js "2024-02-01") = true /\ noComma (js "Coffee") = true
  /\ noComma (js " 12abc") = true
  /\ blank (js "2024-02-01") = false /\ blank (js "Coffee") = false
  /\ trim (js " 12abc") = 49%N :: js "2abc" /\ isDigit 49%N = true
  /\ parseLine [] (js "2024-02-01,Coffee, 12abc,x,y")
     = [{| date := js "2024-02-01"; description := js "Coffee";
           amount := ofDecimal 12 0 |}].
Proof.
  assert (H1 : noComma (js "2024-02-01") = true) by reflexivity.
  assert (H2 : noComma (js "Coffee") = true) by reflexivity.
  assert (H3 : noComma (js " 12abc") = true) by reflexivity.
  assert (H4 : blank (js "2024-02-01") = false) by reflexivity.
  assert (H5 : blank (js "Coffee") = false) by reflexivity.
  assert (H6 : trim (js " 12abc") = 49%N :: js "2abc") by reflexivity.
  assert (H7 : isDigit 49%N = true) by reflexivity.
  repeat (split; [assumption|]).
  exact (proj2 (proj2 (parseLine_keeps_leading_digits [] _ _ _ (js "x,y")
                         49%N (js "2abc") H1 H2 H3 H4 H5 H6 H7))).
Defined.

(** ** The page under any sequence of events *)

Section Reachable.

Variable API_KEY : option jsstring.
Variable NumberToString : number -> jsstring.
Variable injected : jsstring -> nat.

Lemma setInnerHTML_fields (el : nat) (html : jsstring) (st : Page) :
  setInnerHTML el html st
  = setChatHistory (chatHistory (setInnerHTML el html st)) st.
Proof.
  unfold setInnerHTML.
  destruct (chatHistory st !! el) as [[sender old|ps]|];
    try reflexivity; now destruct st.
Qed.

Lemma lookup_setInnerHTML_ne (el i : nat) (html : jsstring) (st : Page) :
  el <> i ->
  chatHistory (setInnerHTML el html st) !! i = chatHistory st !! i.
Proof.
  intros Hne. unfold setInnerHTML.
  destruct (chatHistory st !! el) as [[sender old|ps]|];
    try reflexivity.
  cbn [chatHistory setChatHistory]. now apply list_lookup_insert_ne.
Qed.

(** *** A submission of white space *)

(** X7.  Submitting a text made of white space only changes nothing: no
    entry in the log, no request, the controls as they were, and the text
    stays in the input.  Any other text is appended to the log as typed,
    followed by the placeholder, and the input is emptied. *)
Theorem blank_submission_ignored (text : jsstring) (st : Page) :
  let st' := run API_KEY NumberToString injected st
               [ChatInputTyped text; ChatFormSubmit] in
  (blank text = true -> st' = setChatInputValue text st)
  /\ (blank text = false ->
      chatInputValue st' = []
      /\ exists html,
           chatHistory st'
           = chatHistory st ++ [Message user text; Message model html]).
Proof.
  cbv zeta. cbn [run fold_left step chatInputValue setChatInputValue].
  pose proof (truthy_trim_blank text) as Ht. split; intros B;
    rewrite B in Ht; cbn [negb] in Ht.
  - now apply sendMessage_blank.
  - destruct (chat st) as [c|] eqn:Hc.
    + rewrite (sendMessage_session NumberToString text
                 (setChatInputValue text st) c Ht Hc).
      split; [reflexivity|]. now eexists.
    + rewrite (sendMessage_no_session NumberToString text
                 (setChatInputValue text st) Ht Hc).
      split; [reflexivity|]. now eexists.
Qed.

(** *** Attaching and removing a file *)

(** X8.  When the read of a file ends, the list of the page is the list
    parsed from that file, whatever it held before; the log gains one model
    message, with the count and the button when a record was found and the
    hint about the format otherwise; the session, the controls, the input
    and the suspended sends are untouched. *)
Theorem file_read_replaces (text : jsstring) (st : Page) :
  let st' := step API_KEY NumberToString injected st (FileRead text) in
  transactions st' = parseCSV text
  /\ uploadedFile st' = uploadedFile st
  /\ chatHistory st'
     = chatHistory st
       ++ [Message model
             (match parseCSV text with
              | [] => js "I couldn't find any valid transactions in your CSV. Please check the format (e.g., Date,Description,Amount) and try again."
              | _ :: _ =>
                  js "I've analyzed your CSV file with "
                  ++ decimal (N.of_nat (length (parseCSV text)))
                  ++ js " transactions. You can view them or ask me questions about the data."
                  ++ viewTransactionsButton
              end)]
  /\ chat st' = chat st /\ pending st' = pending st
  /\ chatInputValue st' = chatInputValue st
  /\ chatInputDisabled st' = chatInputDisabled st
  /\ sendButtonDisabled st' = sendButtonDisabled st
  /\ attachButtonDisabled st' = attachButtonDisabled st.
Proof.
  cbv zeta. cbn [step]. unfold addTransactionAnalysisMessage.
  cbn [transactions setUpload].
  destruct (parseCSV text) as [|t ts]; cbn [length Nat.ltb Nat.leb];
    repeat split.
Qed.

(** X9.  Once the file is removed, or its read has failed, the next message
    passed to the session is the text as typed, with no summary, even if
    records had been loaded. *)
Theorem no_summary_after_removal (ev : Event) (text : jsstring) (st : Page)
    (c : Chat) :
  ev = RemoveFileClick \/ ev = FileReadError ->
  chat st = Some c -> blank text = false ->
  let st1 := step API_KEY NumberToString injected st ev in
  uploadedFile st1 = None /\ transactions st1 = []
  /\ chat (sendMessage NumberToString text st1)
     = Some {| systemInstruction := systemInstruction c;
               sent := sent c ++ [text] |}.
Proof.
  intros Hev Hc B. cbv zeta.
  assert (Ht : truthy (trim text) = true)
    by (now rewrite truthy_trim_blank, B).
  assert (H : uploadedFile (step API_KEY NumberToString injected st ev) = None
              /\ transactions (step API_KEY NumberToString injected st ev) = []
              /\ chat (step API_KEY NumberToString injected st ev) = Some c)
    by (destruct Hev as [-> | ->]; now repeat split).
  destruct H as [Hf [Hts Hc1]]. split; [exact Hf|]. split; [exact Hts|].
  rewrite (sendMessage_session NumberToString text _ c Ht Hc1).
  cbn [chat]. unfold promptOf. now rewrite Hf.
Qed.

(** *** The controls *)

Lemma guarded_sendMessage (text : jsstring) (st : Page) :
  guarded st -> guarded (sendMessage NumberToString text st).
Proof.
  intros G. destruct (truthy (trim text)) eqn:Ht;
    [|now rewrite (sendMessage_blank _ _ _ Ht)].
  destruct (chat st) as [c|] eqn:Hc.
  - rewrite (sendMessage_session _ _ _ _ Ht Hc). unfold guarded.
    cbn [chatInputDisabled sendButtonDisabled attachButtonDisabled pending].
    repeat split. intros _. apply insert_non_empty.
  - rewrite (sendMessage_no_session _ _ _ Ht Hc). now unfold guarded.
Qed.

Lemma guarded_resume (el : nat) (signal : Signal) (st : Page) :
  guarded st -> guarded (resume injected el signal st).
Proof.
  intros [G1 [G2 G3]].
  destruct (pending st !! el) as [[|buf]|] eqn:Hp;
    [| |now rewrite (resume_idle injected)];
    destruct signal as [| |text| |];
    try (rewrite (resume_Ended injected _ _ _ Hp); cbv zeta;
         destruct (_ && _));
    try (unfold resume; rewrite Hp); unfold finallyBlock, catchBlock;
    try (now repeat split);
    try rewrite setInnerHTML_fields; unfold guarded;
    cbn [chatInputDisabled sendButtonDisabled attachButtonDisabled pending
         setPending setChatHistory setFormState];
    try (now repeat split);
    try (repeat split; try assumption; intros _; apply insert_non_empty).
Qed.

Lemma guarded_step (st : Page) (ev : Event) :
  guarded st -> guarded (step API_KEY NumberToString injected st ev).
Proof.
  intros G. destruct ev as [profile|value| |text|name|text| | |el signal];
    cbn [step]; try exact G.
  - destruct profile as [[|c p]|]; try exact G.
    apply guarded_sendMessage. unfold initializeChat.
    now destruct (configured API_KEY).
  - now apply guarded_sendMessage.
  - destruct (isPromptButton _ _); [|exact G].
    now apply guarded_sendMessage.
  - unfold addTransactionAnalysisMessage. now destruct (0 <? _).
  - now apply guarded_resume.
Qed.

(** X10.  On every page the listeners can reach, the input, the send button
    and the attach button are disabled together or not at all, and they are
    disabled only while a send is suspended: the controls are never left
    disabled with nothing in flight. *)
Theorem controls_never_stuck (evs : list Event) :
  let st := run API_KEY NumberToString injected initialPage evs in
  sendButtonDisabled st = chatInputDisabled st
  /\ attachButtonDisabled st = chatInputDisabled st
  /\ (chatInputDisabled st = true -> pending st <> ∅).
Proof.
  cbv zeta.
  change (guarded (run API_KEY NumberToString injected initialPage evs)).
  assert (G : guarded initialPage) by (now repeat split).
  revert G. generalize initialPage.
  induction evs as [|ev evs IH]; intros st G; [exact G|].
  apply IH. now apply guarded_step.
Qed.

End Reachable.

Lemma blank_submission_ignored_witness :
  blank (js "   ") = true /\ blank (js " hi ") = false
  /\ run demoKey demoToString demoInjected initialPage
       [ChatInputTyped (js "   "); ChatFormSubmit]
     = setChatInputValue (js "   ") initialPage
  /\ chatInputValue
       (run demoKey demoToString demoInjected initialPage
          [ChatInputTyped (js " hi "); ChatFormSubmit]) = [].
Proof.
  assert (H1 : blank (js "   ") = true) by reflexivity.
  assert (H2 : blank (js " hi ") = false) by reflexivity.
  split; [exact H1|]. split; [exact H2|]. split.
  - exact (proj1 (blank_submission_ignored demoKey demoToString demoInjected
                    (js "   ")
                    initialPage) H1).
  - exact (proj1 (proj2 (blank_submission_ignored demoKey demoToString
                           demoInjected
                           (js " hi ") initialPage) H2)).
Defined.

Lemma no_summary_after_removal_witness :
  let st := run demoKey demoToString demoInjected initialPage
              (attachInfinity ++ [FileChosen (js "january.csv");
                                  FileRead exampleCSV]) in
  (RemoveFileClick = RemoveFileClick \/ RemoveFileClick = FileReadError)
  /\ chat st
     = Some {| systemInstruction := instruction (js "Student");
               sent := [js "Hi! My profile is: Student"] |}
  /\ blank question = false
  /\ length (transactions st) = 2
  /\ chat (sendMessage demoToString question
             (step demoKey demoToString demoInjected st RemoveFileClick))
     = Some {| systemInstruction := instruction (js "Student");
               sent := [js "Hi! My profile is: Student"; question] |}.
Proof.
  cbv zeta.
  assert (H1 : RemoveFileClick = RemoveFileClick
               \/ RemoveFileClick = FileReadError) by (left; reflexivity).
  assert (H2 : chat (run demoKey demoToString demoInjected initialPage
                       (attachInfinity ++ [FileChosen (js "january.csv");
                                           FileRead exampleCSV]))
               = Some {| systemInstruction := instruction (js "Student");
                         sent := [js "Hi! My profile is: Student"] |})
    by reflexivity.
  assert (H3 : blank question = false) by reflexivity.
  split; [exact H1|]. split; [exact H2|]. split; [exact H3|].
  split; [reflexivity|].
  exact (proj2 (proj2 (no_summary_after_removal demoKey demoToString
                         demoInjected
                         RemoveFileClick question _ _ H1 H2 H3))).
Defined.

Lemma controls_never_stuck_witness :
  let st := run demoKey demoToString demoInjected initialPage
              [ProfileButtonClick (Some (js "Student")); Stream 1 Opened] in
  chatInputDisabled st = true /\ pending st <> ∅.
Proof.
  cbv zeta.
  assert (H : chatInputDisabled
                (run demoKey demoToString demoInjected initialPage
                   [ProfileButtonClick (Some (js "Student"));
                    Stream 1 Opened]) = true) by reflexivity.
  split; [exact H|].
  exact (proj2 (proj2 (controls_never_stuck demoKey demoToString demoInjected
                         [ProfileButtonClick (Some (js "Student"));
                          Stream 1 Opened])) H).
Defined.

(** ** The log *)

Section Log.

Variable API_KEY : option jsstring.
Variable NumberToString : number -> jsstring.
Variable injected : jsstring -> nat.

Lemma lookup_sendMessage (text : jsstring) (st : Page) (i : nat)
    (e : Entry) :
  chatHistory st !! i = Some e ->
  chatHistory (sendMessage NumberToString text st) !! i = Some e.
Proof.
  intros H. destruct (truthy (trim text)) eqn:Ht;
    [|now rewrite (sendMessage_blank _ _ _ Ht)].
  destruct (chat st) as [c|] eqn:Hc.
  - rewrite (sendMessage_session _ _ _ _ Ht Hc).
    now apply lookup_app_l_Some.
  - rewrite (sendMessage_no_session _ _ _ Ht Hc).
    now apply lookup_app_l_Some.
Qed.

Lemma lookup_resume (el : nat) (signal : Signal) (st : Page) (i : nat)
    (e : Entry) :
  chatHistory st !! i = Some e -> pending st !! i = None ->
  chatHistory (resume injected el signal st) !! i = Some e.
Proof.
  intros H Hp. destruct (decide (el = i)) as [->|Hne];
    [now rewrite resume_idle|].
  destruct (pending st !! el) as [[|buf]|] eqn:Hq;
    [| |now rewrite (resume_idle injected)];
    destruct signal as [| |text| |];
    try (rewrite (resume_Ended injected _ _ _ Hq); cbv zeta;
         destruct (_ && _));
    try (unfold resume; rewrite Hq); unfold finallyBlock, catchBlock;
    try exact H;
    cbn [chatHistory setPending setFormState setChatHistory];
    rewrite ?(lookup_setInnerHTML_ne el i) by exact Hne;
    try exact H.
  now apply lookup_app_l_Some.
Qed.

Lemma lookup_step (st : Page) (ev : Event) (i : nat) (e : Entry) :
  chatHistory st !! i = Some e -> pending st !! i = None ->
  chatHistory (step API_KEY NumberToString injected st ev) !! i = Some e.
Proof.
  intros H Hp.
  destruct ev as [profile|value| |text|name|text| | |el signal];
    cbn [step]; try exact H.
  - destruct profile as [[|c p]|]; try exact H.
    apply lookup_sendMessage. unfold initializeChat.
    destruct (configured API_KEY); [exact H|].
    cbn. now apply lookup_app_l_Some.
  - now apply lookup_sendMessage.
  - destruct (isPromptButton _ _); [|exact H].
    now apply lookup_sendMessage.
  - unfold addTransactionAnalysisMessage.
    destruct (0 <? _); cbn; now apply lookup_app_l_Some.
  - cbn. now apply lookup_app_l_Some.
  - now apply lookup_resume.
Qed.

Lemma kept_run (evs : list Event) (st : Page) (i : nat) (e : Entry) :
  wellFormed st -> isModelMessage e = false ->
  chatHistory st !! i = Some e ->
  chatHistory (run API_KEY NumberToString injected st evs) !! i = Some e.
Proof.
  revert st. induction evs as [|ev evs IH]; intros st W Hm H; [exact H|].
  cbn [run fold_left]. apply IH; [now apply wellFormed_step|exact Hm|].
  apply lookup_step; [exact H|].
  destruct (pending st !! i) as [ph|] eqn:Hp; [|reflexivity].
  destruct (W i ph Hp) as [html Hl]. rewrite H in Hl.
  injection Hl as ->. discriminate Hm.
Qed.

Lemma length_setInnerHTML (el : nat) (html : jsstring) (st : Page) :
  length (chatHistory (setInnerHTML el html st)) = length (chatHistory st).
Proof.
  unfold setInnerHTML.
  destruct (chatHistory st !! el) as [[sender old|ps]|]; try reflexivity.
  cbn [chatHistory setChatHistory]. apply length_insert.
Qed.

Lemma length_sendMessage (text : jsstring) (st : Page) :
  length (chatHistory st)
  <= length (chatHistory (sendMessage NumberToString text st)).
Proof.
  destruct (truthy (trim text)) eqn:Ht;
    [|now rewrite (sendMessage_blank _ _ _ Ht)].
  destruct (chat st) as [c|] eqn:Hc.
  - rewrite (sendMessage_session _ _ _ _ Ht Hc). cbn [chatHistory].
    rewrite length_app. lia.
  - rewrite (sendMessage_no_session _ _ _ Ht Hc). cbn [chatHistory].
    rewrite length_app. lia.
Qed.

Lemma length_resume (el : nat) (signal : Signal) (st : Page) :
  length (chatHistory st)
  <= length (chatHistory (resume injected el signal st)).
Proof.
  destruct (pending st !! el) as [[|buf]|] eqn:Hp;
    [| |now rewrite (resume_idle injected)];
    destruct signal as [| |text| |];
    try (rewrite (resume_Ended injected _ _ _ Hp); cbv zeta;
         destruct (_ && _));
    try (unfold resume; rewrite Hp); unfold finallyBlock, catchBlock;
    try reflexivity;
    cbn [chatHistory setPending setFormState setChatHistory];
    rewrite ?length_setInnerHTML; try reflexivity.
  rewrite length_app. lia.
Qed.

Lemma length_step (st : Page) (ev : Event) :
  length (chatHistory st)
  <= length (chatHistory (step API_KEY NumberToString injected st ev)).
Proof.
  destruct ev as [profile|value| |text|name|text| | |el signal];
    cbn [step]; try reflexivity.
  - destruct profile as [[|c p]|]; try reflexivity.
    etransitivity; [|apply length_sendMessage]. unfold initializeChat.
    destruct (configured API_KEY); [reflexivity|].
    cbn. rewrite length_app. lia.
  - apply length_sendMessage.
  - destruct (isPromptButton _ _); [|reflexivity].
    apply (length_sendMessage _ (setChatInputValue text st)).
  - unfold addTransactionAnalysisMessage.
    destruct (0 <? _); cbn; rewrite length_app; lia.
  - cbn. rewrite length_app. lia.
  - apply length_resume.
Qed.

(** X11.  The log only grows and is never reordered.  One event leaves
    every entry as it is, except the placeholder of a suspended send; and
    along any sequence of events a message of the user, or a block of
    prompts, once in the log, stays at its place unchanged. *)
Theorem log_is_append_only (evs later : list Event) (ev : Event) (i : nat)
    (e : Entry) :
  let st := run API_KEY NumberToString injected initialPage evs in
  chatHistory st !! i = Some e ->
  (pending st !! i = None ->
   chatHistory (step API_KEY NumberToString injected st ev) !! i = Some e)
  /\ (isModelMessage e = false ->
      chatHistory (run API_KEY NumberToString injected st later) !! i = Some e)
  /\ length (chatHistory st)
     <= length (chatHistory (run API_KEY NumberToString injected st later)).
Proof.
  cbv zeta. intros H. split; [|split].
  - intros Hp. now apply lookup_step.
  - intros Hm. apply kept_run; [apply wellFormed_reachable|exact Hm|exact H].
  - clear H. generalize (run API_KEY NumberToString injected initialPage evs).
    induction later as [|ev' later IH]; intros st; [reflexivity|].
    cbn [run fold_left]. etransitivity; [apply (length_step st ev')|].
    apply IH.
Qed.

End Log.

Lemma log_is_append_only_witness :
  let st := run demoKey demoToString demoInjected initialPage
              [ProfileButtonClick (Some (js "Student"))] in
  chatHistory st !! 0 = Some (Message user (js "Hi! My profile is: Student"))
  /\ chatHistory
       (run demoKey demoToString demoInjected st
          [Stream 1 Opened; Stream 1 (Chunk (js "Welcome")); Stream 1 Ended])
     !! 0 = Some (Message user (js "Hi! My profile is: Student")).
Proof.
  cbv zeta.
  assert (H : chatHistory
                (run demoKey demoToString demoInjected initialPage
                   [ProfileButtonClick (Some (js "Student"))]) !! 0
              = Some (Message user (js "Hi! My profile is: Student")))
    by reflexivity.
  split; [exact H|].
  exact (proj1 (proj2 (log_is_append_only demoKey demoToString demoInjected
                         [ProfileButtonClick (Some (js "Student"))]
                         [Stream 1 Opened; Stream 1 (Chunk (js "Welcome"));
                          Stream 1 Ended]
                         ChatFormSubmit 0 _ H)) eq_refl).
Defined.

(** ** What a placeholder can show *)

Lemma closeStrong_plain (g : jsstring) :
  forallb noAsterisk g = true -> closeStrong g = None.
Proof.
  induction g as [|a g IH]; [reflexivity|]. cbn [forallb].
  intros [Ha Hg]%andb_true_iff. unfold noAsterisk in Ha.
  apply negb_true_iff in Ha. unfold code_unit_eqb in Ha.
  cbn [closeStrong startsWith]. unfold code_unit_eqb.
  rewrite N.eqb_sym, Ha. cbn [andb].
  destruct (isLineTerminator a); [reflexivity|]. now rewrite (IH Hg).
Qed.

Lemma closeStrong_line (g : jsstring) (t : code_unit) (rest : jsstring) :
  forallb noAsterisk g = true -> isLineTerminator t = true ->
  closeStrong (g ++ t :: rest) = None.
Proof.
  intros Hg Ht. induction g as [|a g IH].
  - cbn [app closeStrong startsWith]. unfold code_unit_eqb.
    destruct (N.eqb_spec asterisk t) as [<-|_]; [discriminate Ht|].
    cbn [andb]. now rewrite Ht.
  - cbn [forallb] in Hg. apply andb_true_iff in Hg as [Ha Hg].
    unfold noAsterisk in Ha. apply negb_true_iff in Ha.
    unfold code_unit_eqb in Ha.
    cbn [app closeStrong startsWith]. unfold code_unit_eqb.
    rewrite N.eqb_sym, Ha. cbn [andb].
    destruct (isLineTerminator a); [reflexivity|]. now rewrite (IH Hg).
Qed.

Lemma replaceStrong_app_plain (p r : jsstring) :
  forallb noAsterisk p = true -> replaceStrong (p ++ r) = p ++ replaceStrong r.
Proof.
  induction p as [|c p IH]; [reflexivity|]. cbn [forallb app].
  intros [Hc Hp]%andb_true_iff.
  now rewrite (replaceStrong_cons _ _ Hc), (IH Hp).
Qed.

Lemma replaceStrong_unmatched (x : jsstring) :
  closeStrong x = None ->
  match x with [] => True | b :: _ => noAsterisk b = true end ->
  replaceStrong (asterisk :: asterisk :: x)
  = asterisk :: asterisk :: replaceStrong x.
Proof.
  intros Hx Hb. unfold replaceStrong.
  cbn [replaceStrongFrom matchStrong]. unfold code_unit_eqb at 1 2.
  cbn [N.eqb asterisk Pos.eqb andb]. rewrite Hx. f_equal.
  destruct x as [|b x]; [reflexivity|].
  unfold noAsterisk in Hb. apply negb_true_iff in Hb.
  cbn [replaceStrongFrom matchStrong].
  unfold code_unit_eqb at 1. cbn [N.eqb asterisk Pos.eqb andb].
  now rewrite Hb.
Qed.

Lemma lineTerminator_noAsterisk (t : code_unit) :
  isLineTerminator t = true -> noAsterisk t = true.
Proof.
  intros Ht. unfold noAsterisk, code_unit_eqb.
  destruct (N.eqb_spec t asterisk) as [->|_]; [discriminate Ht|reflexivity].
Qed.

(** X12.  A placeholder never shows a line feed.  A pair of asterisks that
    is not closed yet is shown as it is, and so is a span whose closing
    pair comes after a line terminator: emphasis never crosses a line. *)
Theorem formattedText_edges (s pre g g2 : jsstring) (t : code_unit) :
  forallb noAsterisk pre = true -> forallb noAsterisk g = true ->
  forallb noAsterisk g2 = true -> isLineTerminator t = true ->
  ~ In newline (formattedText s)
  /\ replaceStrong (pre ++ js "**" ++ g) = pre ++ js "**" ++ g
  /\ replaceStrong (pre ++ js "**" ++ g ++ t :: g2 ++ js "**")
     = pre ++ js "**" ++ g ++ t :: g2 ++ js "**".
Proof.
  intros Hpre Hg Hg2 Ht. split; [|split].
  - unfold formattedText, replaceNewlines. intros H.
    apply List.in_flat_map in H as [c [_ Hc]].
    unfold code_unit_eqb in Hc.
    destruct (N.eqb_spec c newline) as [Heq|Hne].
    + vm_compute in Hc. intuition discriminate.
    + destruct Hc as [Hc|[]]. now apply Hne.
  - rewrite (replaceStrong_app_plain _ _ Hpre). f_equal.
    change (js "**" ++ g) with (asterisk :: asterisk :: g).
    rewrite replaceStrong_unmatched.
    + now rewrite (replaceStrong_plain _ Hg).
    + now apply closeStrong_plain.
    + destruct g as [|b g']; [exact I|]. cbn [forallb] in Hg.
      now apply andb_true_iff in Hg as [Hb _].
  - rewrite (replaceStrong_app_plain _ _ Hpre). f_equal.
    change (js "**" ++ g ++ t :: g2 ++ js "**")
      with (asterisk :: asterisk :: g ++ t :: g2 ++ js "**").
    rewrite replaceStrong_unmatched.
    + f_equal. f_equal. rewrite (replaceStrong_app_plain _ _ Hg).
      f_equal.
      rewrite (replaceStrong_cons t _ (lineTerminator_noAsterisk t Ht)).
      f_equal. now rewrite (replaceStrong_app_plain _ _ Hg2).
    + now apply closeStrong_line.
    + destruct g as [|b g']; cbn [app].
      * now apply lineTerminator_noAsterisk.
      * cbn [forallb] in Hg. now apply andb_true_iff in Hg as [Hb _].
Qed.

Lemma formattedText_edges_witness :
  forallb noAsterisk (js "Save ") = true
  /\ forallb noAsterisk (js "ten") = true
  /\ forallb noAsterisk (js "percent") = true
  /\ isLineTerminator newline = true
  /\ formattedText (js "Save **ten" ++ newline :: js "percent**")
     = js "Save **ten<br>percent**".
Proof.
  assert (H1 : forallb noAsterisk (js "Save ") = true) by reflexivity.
  assert (H2 : forallb noAsterisk (js "ten") = true) by reflexivity.
  assert (H3 : forallb noAsterisk (js "percent") = true) by reflexivity.
  assert (H4 : isLineTerminator newline = true) by reflexivity.
  repeat (split; [assumption|]).
  unfold formattedText.
  change (js "Save **ten" ++ newline :: js "percent**")
    with (js "Save " ++ js "**" ++ js "ten" ++ newline
          :: js "percent" ++ js "**").
  rewrite (proj2 (proj2 (formattedText_edges [] _ _ _ _ H1 H2 H3 H4))).
  reflexivity.
Defined.

(** ** What the session is told *)

Section Transcript.

Variable API_KEY : option jsstring.
Variable NumberToString : number -> jsstring.
Variable injected : jsstring -> nat.

Lemma said_cons (t : jsstring * Outcome) (turns : list (jsstring * Outcome)) :
  said (t :: turns) = said [t] ++ said turns.
Proof.
  unfold said. cbn [List.map List.filter].
  now destruct (truthy (trim (fst t))).
Qed.

Lemma promptOf_no_file (st : Page) (text : jsstring) :
  uploadedFile st = None -> promptOf NumberToString st text = text.
Proof. intros H. unfold promptOf. now rewrite H. Qed.

(** One turn on a page with nothing in flight and no file attached. *)
Lemma turn_transcript (st : Page) (t : jsstring * Outcome) :
  pending st = ∅ -> uploadedFile st = None -> enabled st ->
  let st' := turn API_KEY NumberToString injected st t in
  pending st' = ∅ /\ uploadedFile st' = None /\ enabled st'
  /\ List.filter isUserMessage (chatHistory st')
     = List.filter isUserMessage (chatHistory st)
       ++ List.map (Message user) (said [t])
  /\ option_map sent (chat st')
     = option_map (fun c => sent c ++ said [t]) (chat st)
  /\ option_map systemInstruction (chat st')
     = option_map systemInstruction (chat st).
Proof.
  intros Hp Hf He. destruct t as [text o]. cbv zeta. rewrite turn_unfold.
  set (st1 := setChatInputValue text st).
  unfold said. cbn [List.map List.filter fst].
  destruct (truthy (trim text)) eqn:Ht.
  - destruct (chat st) as [c|] eqn:Hc.
    + rewrite (send_stream_session API_KEY NumberToString injected text o
                 st1 c Ht Hc Hp).
      cbn [pending uploadedFile chatHistory chat option_map sent
           systemInstruction List.map].
      rewrite (promptOf_no_file st1 text Hf).
      change (chatHistory st1) with (chatHistory st).
      repeat split; try assumption.
      apply answered_users.
    + rewrite (sendMessage_no_session NumberToString text st1 Ht Hc).
      rewrite (stream_idle API_KEY NumberToString injected) by exact Hp.
      cbn [pending uploadedFile chatHistory chat option_map List.map].
      repeat split; try assumption.
      now rewrite List.filter_app.
  - rewrite (sendMessage_blank NumberToString text st1 Ht).
    rewrite (stream_idle API_KEY NumberToString injected) by exact Hp.
    cbn [List.map]. rewrite app_nil_r.
    repeat split; try assumption; try apply He.
    change (chat st1) with (chat st). destruct (chat st) as [c|]; cbn.
    + now rewrite app_nil_r.
    + reflexivity.
Qed.

Lemma turns_transcript (turns : list (jsstring * Outcome)) (st : Page) :
  pending st = ∅ -> uploadedFile st = None -> enabled st ->
  let st' := fold_left (turn API_KEY NumberToString injected) turns st in
  pending st' = ∅ /\ enabled st'
  /\ List.filter isUserMessage (chatHistory st')
     = List.filter isUserMessage (chatHistory st)
       ++ List.map (Message user) (said turns)
  /\ option_map sent (chat st')
     = option_map (fun c => sent c ++ said turns) (chat st)
  /\ option_map systemInstruction (chat st')
     = option_map systemInstruction (chat st).
Proof.
  revert st. induction turns as [|t turns IH]; intros st Hp Hf He; cbv zeta.
  - cbn [fold_left said List.map List.filter]. rewrite app_nil_r.
    repeat split; try assumption; try apply He.
    destruct (chat st) as [c|]; cbn; [now rewrite app_nil_r|reflexivity].
  - cbn [fold_left].
    destruct (turn_transcript st t Hp Hf He)
      as (Hp1 & Hf1 & He1 & L1 & S1 & I1).
    destruct (IH _ Hp1 Hf1 He1) as (Hp2 & He2 & L2 & S2 & I2).
    repeat split; try assumption; try apply He2.
    + rewrite L2, L1, <- app_assoc, <- List.map_app, <- said_cons.
      reflexivity.
    + rewrite S2. rewrite (said_cons t turns).
      destruct (chat (turn API_KEY NumberToString injected st t))
        as [c1|] eqn:C1;
        destruct (chat st) as [c|]; cbn in S1 |- *; try discriminate S1.
      * injection S1 as ->. now rewrite app_assoc.
      * reflexivity.
    + now rewrite I2, I1.
Qed.

(** X13.  In a conversation whose sends do not overlap, with no file
    attached, the log shows the greeting and then every text that is not
    blank, in order, as user messages, and the session, when there is a key,
    was created with the instruction of the profile and was passed exactly
    those texts, also the ones whose stream failed; without a key there is
    no session.  At the end nothing is in flight and the controls are
    enabled. *)
Theorem conversation_transcript (p : jsstring) (greeting : Outcome)
    (turns : list (jsstring * Outcome)) :
  p <> [] ->
  let st := conversation API_KEY NumberToString injected p greeting turns in
  List.filter isUserMessage (chatHistory st)
  = List.map (Message user) (greetingOf p :: said turns)
  /\ chat st
     = (if configured API_KEY
        then Some {| systemInstruction := instruction p;
                     sent := greetingOf p :: said turns |}
        else None)
  /\ pending st = ∅ /\ enabled st.
Proof.
  intros Hp. cbv zeta. unfold conversation.
  assert (Ht : truthy (trim (greetingOf p)) = true)
    by apply greeting_not_blank.
  rewrite (profile_click API_KEY NumberToString injected p _ Hp).
  set (st0 := stream API_KEY NumberToString injected greeting _).
  assert (H0 : pending st0 = ∅ /\ uploadedFile st0 = None /\ enabled st0
               /\ List.filter isUserMessage (chatHistory st0)
                  = [Message user (greetingOf p)]
               /\ chat st0
                  = (if configured API_KEY
                     then Some {| systemInstruction := instruction p;
                                  sent := [greetingOf p] |}
                     else None)).
  { subst st0. unfold initializeChat. destruct (configured API_KEY).
    - erewrite send_stream_session; [|exact Ht|reflexivity|reflexivity].
      cbn [pending uploadedFile chatHistory chat setChat setUserProfile
           initialPage userProfile sent systemInstruction app].
      rewrite promptOf_no_file by reflexivity.
      repeat split. apply answered_users.
    - rewrite sendMessage_no_session; [|exact Ht|reflexivity].
      rewrite (stream_idle API_KEY NumberToString injected) by reflexivity.
      repeat split. }
  destruct H0 as (Hp0 & Hf0 & He0 & L0 & C0).
  destruct (turns_transcript turns st0 Hp0 Hf0 He0)
    as (Hp1 & He1 & L1 & S1 & I1).
  split; [|split; [|split]]; try assumption.
  - rewrite L1, L0. reflexivity.
  - rewrite C0 in S1, I1.
    destruct (chat (fold_left _ turns st0)) as [[i s]|];
      destruct (configured API_KEY); cbn in S1, I1; try discriminate S1.
    + injection S1 as ->. injection I1 as ->. reflexivity.
    + reflexivity.
Qed.

(** *** Records of an earlier file *)

(** X14.  Choosing a file leaves the list of records as it was until the
    read of the new file ends: a message sent in between carries the summary
    of the records loaded before. *)
Theorem summary_of_earlier_records (name text : jsstring) (st : Page)
    (c : Chat) :
  transactions st <> [] -> chat st = Some c -> blank text = false ->
  let st1 := step API_KEY NumberToString injected st (FileChosen name) in
  uploadedFile st1 = Some name /\ transactions st1 = transactions st
  /\ chat (sendMessage NumberToString text st1)
     = Some {| systemInstruction := systemInstruction c;
               sent := sent c
                       ++ [summary NumberToString (transactions st)
                           ++ [newline; newline]
                           ++ js "Please answer the user's question based on this data: "
                           ++ dquote ++ text ++ dquote] |}.
Proof.
  intros Hts Hc B. cbv zeta.
  assert (Ht : truthy (trim text) = true)
    by (now rewrite truthy_trim_blank, B).
  split; [reflexivity|]. split; [reflexivity|].
  rewrite (sendMessage_session NumberToString text
             (step API_KEY NumberToString injected st (FileChosen name)) c Ht
             Hc).
  cbn [chat]. unfold promptOf. cbn [step uploadedFile transactions setUpload].
  destruct (transactions st) as [|t ts]; [contradiction|]. reflexivity.
Qed.

End Transcript.

Lemma conversation_transcript_witness :
  js "Student" <> []
  /\ chat (conversation demoKey demoToString demoInjected (js "Student")
             (Completes [js "Hello"])
             [(js "  ", Completes []); (question, Fails [])])
     = Some {| systemInstruction := instruction (js "Student");
               sent := [greetingOf (js "Student"); question] |}.
Proof.
  assert (H : js "Student" <> []) by discriminate.
  split; [exact H|].
  exact (proj1 (proj2 (conversation_transcript demoKey demoToString demoInjected
                         (js "Student") (Completes [js "Hello"])
                         [(js "  ", Completes []); (question, Fails [])] H))).
Defined.

Lemma summary_of_earlier_records_witness :
  let st := run demoKey demoToString demoInjected initialPage
              (ProfileButtonClick (Some (js "Student")) :: attachExample) in
  transactions st <> []
  /\ blank question = false
  /\ transactions (step demoKey demoToString demoInjected st
                     (FileChosen (js "new.csv")))
     = parseCSV exampleCSV.
Proof.
  cbv zeta.
  assert (H1 : transactions
                 (run demoKey demoToString demoInjected initialPage
                    (ProfileButtonClick (Some (js "Student"))
                     :: attachExample))
               <> []) by (vm_compute; discriminate).
  assert (H2 : blank question = false) by reflexivity.
  split; [exact H1|]. split; [exact H2|].
  pose proof (summary_of_earlier_records demoKey demoToString demoInjected
                (js "new.csv")
                question _ _ H1 eq_refl H2) as H.
  cbv zeta in H. destruct H as (_ & H & _). rewrite H.
  vm_compute. reflexivity.
Defined.

(** ** The session and the log *)

Section Mirror.

Variable API_KEY : option jsstring.
Variable NumberToString : number -> jsstring.
Variable injected : jsstring -> nat.

Lemma userTexts_app (h1 h2 : list Entry) :
  userTexts (h1 ++ h2) = userTexts h1 ++ userTexts h2.
Proof. apply omap_app. Qed.

Lemma userTexts_insert_model (h : list Entry) (el : nat)
    (old html : jsstring) :
  h !! el = Some (Message model old) ->
  userTexts (<[el := Message model html]> h) = userTexts h.
Proof.
  revert el. induction h as [|a h IH]; intros [|el] H;
    try discriminate H.
  - injection H as ->. reflexivity.
  - cbn in H. change (<[S el := Message model html]> (a :: h))
      with (a :: <[el := Message model html]> h).
    rewrite (userTexts_app [a] (<[el := Message model html]> h)
             : userTexts (a :: _) = _).
    rewrite (userTexts_app [a] h : userTexts (a :: h) = _).
    now rewrite (IH el H).
Qed.

Lemma userTexts_blockOf (profile : option jsstring) :
  userTexts (blockOf profile) = [].
Proof.
  unfold blockOf. now destruct (promptsFor profile) as [[|q qs]|len].
Qed.

Lemma userTexts_setInnerHTML (el : nat) (html : jsstring) (st : Page)
    (ph : Phase) :
  wellFormed st -> pending st !! el = Some ph ->
  userTexts (chatHistory (setInnerHTML el html st))
  = userTexts (chatHistory st).
Proof.
  intros W Hp. destruct (W el ph Hp) as [old Hl].
  rewrite (setInnerHTML_message _ _ _ _ _ Hl). cbn [chatHistory setChatHistory].
  now apply userTexts_insert_model with old.
Qed.

Lemma chatHistory_setInnerHTML_setPending (el : nat) (html : jsstring)
    (p : gmap nat Phase) (st : Page) :
  chatHistory (setInnerHTML el html (setPending p st))
  = chatHistory (setInnerHTML el html st).
Proof.
  unfold setInnerHTML. cbn [chatHistory setPending].
  now destruct (chatHistory st !! el) as [[sender old|ps]|].
Qed.

Lemma userTexts_resume (el : nat) (signal : Signal) (st : Page) :
  wellFormed st ->
  userTexts (chatHistory (resume injected el signal st))
  = userTexts (chatHistory st).
Proof.
  intros W. destruct (pending st !! el) as [ph|] eqn:Hp;
    [|now rewrite (resume_idle injected)].
  pose proof (fun html => userTexts_setInnerHTML el html st ph W Hp) as U.
  destruct ph as [|buf], signal as [| |text| |];
    try (rewrite (resume_Ended injected _ _ _ Hp); cbv zeta;
         destruct (_ && _));
    try (unfold resume; rewrite Hp); try reflexivity;
    unfold finallyBlock, catchBlock;
    cbn [chatHistory setPending setFormState setChatHistory];
    rewrite ?chatHistory_setInnerHTML_setPending; try apply U.
  rewrite userTexts_app.
  destruct (_ =? 1); [rewrite userTexts_blockOf|]; apply app_nil_r.
Qed.

Lemma userTexts_sendMessage (text : jsstring) (st : Page) :
  userTexts (chatHistory (sendMessage NumberToString text st))
  = userTexts (chatHistory st)
    ++ (if truthy (trim text) then [text] else []).
Proof.
  destruct (truthy (trim text)) eqn:Ht.
  - destruct (chat st) as [c|] eqn:Hc.
    + rewrite (sendMessage_session _ _ _ _ Ht Hc). cbn [chatHistory].
      now rewrite userTexts_app.
    + rewrite (sendMessage_no_session _ _ _ Ht Hc). cbn [chatHistory].
      now rewrite userTexts_app.
  - rewrite (sendMessage_blank _ _ _ Ht). now rewrite app_nil_r.
Qed.

Lemma carries_promptOf (st : Page) (text : jsstring) :
  carries NumberToString (promptOf NumberToString st text) text.
Proof.
  unfold promptOf.
  destruct (bool_decide _ && _); [right; now exists (transactions st)|now left].
Qed.

Lemma mirrors_same (st st' : Page) :
  chat st' = chat st ->
  userTexts (chatHistory st') = userTexts (chatHistory st) ->
  mirrors NumberToString st -> mirrors NumberToString st'.
Proof. intros Hc Hu M c H. rewrite Hc in H. rewrite Hu. exact (M c H). Qed.

Lemma mirrors_sendMessage (text : jsstring) (st : Page) :
  mirrors NumberToString st ->
  mirrors NumberToString (sendMessage NumberToString text st).
Proof.
  intros M. destruct (truthy (trim text)) eqn:Ht.
  - destruct (chat st) as [c|] eqn:Hc.
    + intros c'. rewrite (sendMessage_session _ _ _ _ Ht Hc).
      cbn [chat chatHistory]. intros [= <-]. cbn [sent].
      destruct (M c Hc) as (older & recent & E & F).
      exists older, (recent ++ [text]). split.
      * rewrite userTexts_app, E, <- app_assoc. reflexivity.
      * apply Forall2_app; [exact F|].
        constructor; [apply carries_promptOf|constructor].
    + intros c'. rewrite (sendMessage_no_session _ _ _ Ht Hc).
      cbn [chat]. discriminate.
  - now rewrite (sendMessage_blank _ _ _ Ht).
Qed.

Lemma mirrors_step (st : Page) (ev : Event) :
  wellFormed st -> mirrors NumberToString st ->
  mirrors NumberToString (step API_KEY NumberToString injected st ev).
Proof.
  intros W M. destruct ev as [profile|value| |text|name|text| | |el signal];
    cbn [step]; try exact M.
  - destruct profile as [[|a p]|]; try exact M.
    apply mirrors_sendMessage. unfold initializeChat.
    destruct (configured API_KEY).
    + intros c. cbn [chat setChat chatHistory setUserProfile].
      intros [= <-]. exists (userTexts (chatHistory st)), [].
      split; [now rewrite app_nil_r|constructor].
    + apply (mirrors_same st); [reflexivity| |exact M].
      cbn [addMessage fst chatHistory setChatHistory setUserProfile].
      now rewrite userTexts_app, app_nil_r.
  - now apply mirrors_sendMessage.
  - destruct (isPromptButton text (chatHistory st)); [|exact M].
    now apply mirrors_sendMessage.
  - unfold addTransactionAnalysisMessage.
    apply (mirrors_same st); [now destruct (0 <? _)| |exact M].
    destruct (0 <? _);
      cbn [addMessage fst chatHistory setChatHistory setUpload];
      now rewrite userTexts_app, app_nil_r.
  - apply (mirrors_same st); [reflexivity| |exact M].
    cbn [resetFileInput addMessage fst chatHistory setChatHistory setUpload].
    now rewrite userTexts_app, app_nil_r.
  - apply (mirrors_same st); [apply chat_resume| |exact M].
    now apply userTexts_resume.
Qed.

Lemma said_step (st : Page) (ev : Event) :
  wellFormed st ->
  Forall (fun t => blank t = false) (userTexts (chatHistory st)) ->
  Forall (fun t => blank t = false)
         (userTexts (chatHistory (step API_KEY NumberToString injected st ev))).
Proof.
  intros W F.
  assert (S : forall text st',
             userTexts (chatHistory st') = userTexts (chatHistory st) ->
             Forall (fun t => blank t = false)
               (userTexts (chatHistory (sendMessage NumberToString text st')))).
  { intros text st' E. rewrite userTexts_sendMessage, E.
    apply Forall_app. split; [exact F|].
    destruct (truthy (trim text)) eqn:Ht; [|constructor].
    constructor; [|constructor].
    rewrite truthy_trim_blank in Ht. now apply negb_true_iff in Ht. }
  destruct ev as [profile|value| |text|name|text| | |el signal];
    cbn [step]; try exact F.
  - destruct profile as [[|a p]|]; try exact F.
    apply S. unfold initializeChat.
    destruct (configured API_KEY); [reflexivity|].
    cbn [addMessage fst chatHistory setChatHistory setUserProfile].
    now rewrite userTexts_app, app_nil_r.
  - now apply S.
  - destruct (isPromptButton text (chatHistory st)); [|exact F].
    now apply S.
  - unfold addTransactionAnalysisMessage.
    destruct (0 <? _);
      cbn [addMessage fst chatHistory setChatHistory setUpload];
      now rewrite userTexts_app, app_nil_r.
  - cbn [resetFileInput addMessage fst chatHistory setChatHistory setUpload].
    now rewrite userTexts_app, app_nil_r.
  - now rewrite userTexts_resume.
Qed.

(** X15.  On every page the listeners can reach, no user message of the log
    is blank, and the messages passed to the session since it was created
    carry the texts of the latest user messages of the log, one for one and
    in order: each is the text itself, or the text in quotes after a
    summary. *)
Theorem session_mirrors_log (evs : list Event) :
  let st := run API_KEY NumberToString injected initialPage evs in
  Forall (fun t => blank t = false) (userTexts (chatHistory st))
  /\ forall c, chat st = Some c ->
       exists older recent,
         userTexts (chatHistory st) = older ++ recent
         /\ Forall2 (carries NumberToString) (sent c) recent.
Proof.
  cbv zeta.
  assert (H : wellFormed initialPage
              /\ Forall (fun t => blank t = false)
                        (userTexts (chatHistory initialPage))
              /\ mirrors NumberToString initialPage).
  { split; [|split].
    - intros el ph H. cbn in H. now rewrite lookup_empty in H.
    - constructor.
    - intros c H. discriminate H. }
  revert H. generalize initialPage.
  induction evs as [|ev evs IH]; intros st (W & F & M).
  - split; [exact F|exact M].
  - apply IH. split; [|split].
    + now apply wellFormed_step.
    + now apply said_step.
    + now apply mirrors_step.
Qed.

End Mirror.

Lemma session_mirrors_log_witness :
  exists older recent,
    userTexts (chatHistory (run demoKey demoToString demoInjected initialPage
                              overlappingSends))
    = older ++ recent
    /\ length recent
       = length (userTexts (chatHistory (run demoKey demoToString demoInjected
                                           initialPage
                                           overlappingSends))).
Proof.
  destruct (session_mirrors_log demoKey demoToString demoInjected
              overlappingSends)
    as [_ H].
  cbv zeta in H.
  destruct (chat (run demoKey demoToString demoInjected initialPage
                    overlappingSends))
    as [c|] eqn:Hc; [|vm_compute in Hc; discriminate Hc].
  destruct (H c eq_refl) as (older & recent & E & F).
  exists older, recent. split; [exact E|].
  apply Forall2_length in F. rewrite <- F.
  vm_compute in Hc. injection Hc as <-. reflexivity.
Defined.
